(** * Affordability checker back end: a shallow embedding of [server.js]

    The service has two POST handlers.  [/validate] reads seven fields
    from the parsed JSON body, runs presence/range checks, a numeric
    check, converts the fields with [parseFloat]/[parseInt] and answers
    with the affordability figures.  [/feedback] sanitizes a text with
    the express-validator chain [trim().escape()] and inserts it through
    the connection pool.

    [server.js] holds two versions of the service.  The embedding starts
    with the later one, with the simplified field set (the second
    [/validate] handler and its [/feedback], which is the same in both
    versions); the two CORS layers of the later version and the
    [/validate] handler of the earlier one (module [Detailed]) follow.

    The handlers are translated statement by statement.  The JavaScript
    built-ins they call (coercions, relational operators, [parseFloat],
    [parseInt], [isFinite], [Math.floor], [toFixed]) follow ECMA-262 and
    are written over IEEE 754 binary64 numbers as given by the Standard
    Library's [SpecFloat]. *)

From Stdlib Require Import ZArith NArith List Lia Bool.
From Stdlib Require Import SpecFloat.
From stdpp Require Import gmap strings list.
Import ListNotations.

Local Open Scope Z_scope.

(** ** Abrupt completions

    A JavaScript expression either yields a value or throws.  The only
    exceptions the handlers can meet are the [TypeError] of a failed
    object-to-primitive conversion and the [RangeError] of [toFixed]. *)

Inductive Exn := TypeError | RangeError.

Inductive result (A : Type) :=
| Ok (a : A)
| Throw (e : Exn).
Arguments Ok {A} a.
Arguments Throw {A} e.

#[global] Instance result_ret : MRet result := fun A a => Ok a.

#[global] Instance result_bind : MBind result := fun A B k r =>
  match r with
  | Ok a => k a
  | Throw e => Throw e
  end.

(** ** Strings

    A JavaScript string is a sequence of UTF-16 code units. *)

Definition jsstring := list N.

Definition lit (s : string) : jsstring :=
  map (fun a => N.of_nat (Ascii.nat_of_ascii a)) (String.list_ascii_of_string s).

(** [WhiteSpace] and [LineTerminator] code units: what [\s] matches and
    what [TrimString] removes. *)
Definition is_whitespace (c : N) : bool :=
  ((9 <=? c) && (c <=? 13) || (c =? 32) || (c =? 160) || (c =? 5760)
   || (8192 <=? c) && (c <=? 8202) || (c =? 8232) || (c =? 8233)
   || (c =? 8239) || (c =? 8287) || (c =? 12288) || (c =? 65279))%N.

Fixpoint trim_start (s : jsstring) : jsstring :=
  match s with
  | c :: rest => if is_whitespace c then trim_start rest else s
  | [] => []
  end.

Definition trim_end (s : jsstring) : jsstring := rev (trim_start (rev s)).

Definition is_digit (c : N) : bool := ((48 <=? c) && (c <=? 57))%N.

Definition digit_value (c : N) : Z := Z.of_N c - 48.

(** Longest prefix of decimal digits, read as an integer, with its
    length and the rest of the string. *)
Fixpoint read_digits (acc : Z) (count : Z) (s : jsstring) : Z * Z * jsstring :=
  match s with
  | c :: rest =>
      if is_digit c then read_digits (10 * acc + digit_value c) (count + 1) rest
      else (acc, count, s)
  | [] => (acc, count, [])
  end.

Fixpoint starts_with (p s : jsstring) : option jsstring :=
  match p, s with
  | [], _ => Some s
  | a :: p', b :: s' => if (a =? b)%N then starts_with p' s' else None
  | _ :: _, [] => None
  end.

(** ** Numbers: IEEE 754 binary64 *)

Abbreviation number := spec_float.

Definition prec : Z := 53.
Definition emax : Z := 1024.

Definition NaN : number := S754_nan.
Definition Infinity : number := S754_infinity false.

Definition num_add : number -> number -> number := SFadd prec emax.
Definition num_sub : number -> number -> number := SFsub prec emax.
Definition num_mul : number -> number -> number := SFmul prec emax.
Definition num_div : number -> number -> number := SFdiv prec emax.

(** The Number value for an integer. *)
Definition of_Z (z : Z) : number := binary_normalize prec emax z 0 false.

(** The Number value for [m * 10^e], [m >= 0], rounded to nearest, ties
    to even; [neg] is the sign. *)
Definition of_decimal (neg : bool) (m e : Z) : number :=
  match m with
  | Z0 => S754_zero neg
  | Zpos p =>
      if 0 <=? e then binary_round prec emax neg (Z.to_pos (Zpos p * 10 ^ e)) 0
      else
        let '(q, e', l) := SFdiv_core_binary prec emax (Zpos p) 0 (10 ^ (- e)) 0 in
        binary_round_aux prec emax neg q e' l
  | Zneg _ => NaN
  end.

Definition isNaN (x : number) : bool :=
  match x with S754_nan => true | _ => false end.

Definition num_isFinite (x : number) : bool :=
  match x with S754_zero _ | S754_finite _ _ _ => true | _ => false end.

Definition num_eqb (x y : number) : bool :=
  match x, y with
  | S754_zero a, S754_zero b => Bool.eqb a b
  | S754_infinity a, S754_infinity b => Bool.eqb a b
  | S754_nan, S754_nan => true
  | S754_finite a m e, S754_finite b m' e' =>
      Bool.eqb a b && (m =? m')%positive && (e =? e')
  | _, _ => false
  end.

(** Relational operators on Numbers: a comparison with NaN is false. *)
Definition num_lt (x y : number) : bool := SFltb x y.
Definition num_le (x y : number) : bool := SFleb x y.
Definition num_gt (x y : number) : bool := SFltb y x.
Definition num_ge (x y : number) : bool := SFleb y x.

(** *** Number::toString

    The digits are the shortest decimal [n * 10^(e-k)] (with [k] digits)
    whose Number value is [x]; among several the closest to [x]. *)

Fixpoint digits_of_fuel (fuel : nat) (n : Z) (acc : jsstring) : jsstring :=
  match fuel with
  | O => acc
  | S f =>
      let acc' := Z.to_N (48 + n mod 10) :: acc in
      if n <? 10 then acc' else digits_of_fuel f (n / 10) acc'
  end.

(** Decimal digits of a non-negative integer. *)
Definition digits_of (n : Z) : jsstring :=
  digits_of_fuel (S (Z.to_nat (Z.log2 n))) n [].

(** Scan upwards for the least [e] with [num < den * 10^e]. *)
Fixpoint dec_exp_up (fuel : nat) (num den : Z) (e : Z) : Z :=
  match fuel with
  | O => e
  | S f => if num <? den then e else dec_exp_up f num (den * 10) (e + 1)
  end.

(** Scan downwards for the least [e] with [num < den * 10^e], below 0. *)
Fixpoint dec_exp_down (fuel : nat) (num den : Z) (e : Z) : Z :=
  match fuel with
  | O => e
  | S f => if den <=? num * 10 then e else dec_exp_down f (num * 10) den (e - 1)
  end.

(** The integer [e] with [10^(e-1) <= num/den < 10^e]. *)
Definition dec_exp (num den : Z) : Z :=
  if den <=? num then dec_exp_up (S (Z.to_nat (Z.log2 num))) num den 0
  else dec_exp_down (S (Z.to_nat (Z.log2 den))) num den 0.

(** [num/den] divided by [10^s], as a fraction. *)
Definition scale10 (num den s : Z) : Z * Z :=
  if s <? 0 then (num * 10 ^ (- s), den) else (num, den * 10 ^ s).

(** One attempt with [k] digits: the two [k]-digit decimals around
    [num/den], kept when they read back as [x]. *)
Definition shortest_try (x : number) (num den e k : Z) : option (Z * Z) :=
  let s := e - k in
  let '(num', den') := scale10 num den s in
  let lo := num' / den' in
  let r := num' mod den' in
  let hi := lo + 1 in
  let lo_ok := num_eqb (of_decimal false lo s) x in
  let hi_ok := num_eqb (of_decimal false hi s) x in
  let norm c := if c =? 10 ^ k then (10 ^ (k - 1), e + 1) else (c, e) in
  match lo_ok, hi_ok with
  | true, true =>
      match 2 * r ?= den' with
      | Lt => Some (norm lo)
      | Gt => Some (norm hi)
      | Eq => Some (norm (if Z.even lo then lo else hi))
      end
  | true, false => Some (norm lo)
  | false, true => Some (norm hi)
  | false, false => None
  end.

(** Seventeen digits always identify a binary64 value; the last line is
    only met on a mantissa that is not in canonical form. *)
Fixpoint shortest_from (fuel : nat) (x : number) (num den e k : Z) : Z * Z * Z :=
  match fuel with
  | O => let '(num', den') := scale10 num den (e - k) in (num' / den', k, e)
  | S f =>
      match shortest_try x num den e k with
      | Some (n, e') => (n, k, e')
      | None => shortest_from f x num den e (k + 1)
      end
  end.

(** [(n, k, e)] of Number::toString for a positive finite [m * 2^ex]. *)
Definition shortest_decimal (m : positive) (ex : Z) : Z * Z * Z :=
  let num := if 0 <=? ex then Zpos m * 2 ^ ex else Zpos m in
  let den := if 0 <=? ex then 1 else 2 ^ (- ex) in
  shortest_from 17 (S754_finite false m ex) num den (dec_exp num den) 1.

Definition zeros (n : Z) : jsstring := repeat 48%N (Z.to_nat n).

Definition positive_toString (m : positive) (ex : Z) : jsstring :=
  let '(n, k, e) := shortest_decimal m ex in
  let ds := digits_of n in
  if (k <=? e) && (e <=? 21) then ds ++ zeros (e - k)
  else if (0 <? e) && (e <=? 21) then
    take (Z.to_nat e) ds ++ lit "." ++ drop (Z.to_nat e) ds
  else if (-6 <? e) && (e <=? 0) then lit "0." ++ zeros (- e) ++ ds
  else
    let exponent :=
      lit (if 0 <=? e - 1 then "e+" else "e-") ++ digits_of (Z.abs (e - 1)) in
    if k =? 1 then ds ++ exponent
    else take 1 ds ++ lit "." ++ drop 1 ds ++ exponent.

Definition Number_toString (x : number) : jsstring :=
  match x with
  | S754_nan => lit "NaN"
  | S754_zero _ => lit "0"
  | S754_infinity s => if s then lit "-Infinity" else lit "Infinity"
  | S754_finite s m e =>
      (if s then lit "-" else []) ++ positive_toString m e
  end.

(** *** Reading numbers from strings *)

(** [ExponentPart]: [e] or [E], an optional sign, at least one digit.
    Yields the exponent and the rest; without a well-formed exponent
    nothing is consumed. *)
Definition read_exponent (s : jsstring) : Z * jsstring :=
  match s with
  | c :: rest =>
      if ((c =? 101) || (c =? 69))%N then
        let '(neg, rest') :=
          match rest with
          | d :: r => if (d =? 45)%N then (true, r)
                      else if (d =? 43)%N then (false, r) else (false, rest)
          | [] => (false, rest)
          end in
        let '(v, count, rest'') := read_digits 0 0 rest' in
        if count =? 0 then (0, s) else ((if neg then - v else v), rest'')
      else (0, s)
  | [] => (0, s)
  end.

(** Longest prefix that is a [StrUnsignedDecimalLiteral]; its Number
    value with sign [neg], and the rest. *)
Definition read_unsigned_decimal (neg : bool) (s : jsstring)
  : option (number * jsstring) :=
  match starts_with (lit "Infinity") s with
  | Some rest => Some (S754_infinity neg, rest)
  | None =>
      let '(int_part, int_count, rest) := read_digits 0 0 s in
      let '(mant, frac_count, rest') :=
        match rest with
        | c :: r =>
            if (c =? 46)%N then
              let '(m, count, r') := read_digits int_part 0 r in
              if (int_count =? 0) && (count =? 0) then (int_part, 0, rest)
              else (m, count, r')
            else (int_part, 0, rest)
        | [] => (int_part, 0, rest)
        end in
      if (int_count =? 0) && (frac_count =? 0) then None
      else
        let '(ex, rest'') := read_exponent rest' in
        Some (of_decimal neg mant (ex - frac_count), rest'')
  end.

(** Longest prefix that is a [StrDecimalLiteral]. *)
Definition read_decimal (s : jsstring) : option (number * jsstring) :=
  match s with
  | c :: rest =>
      if (c =? 45)%N then read_unsigned_decimal true rest
      else if (c =? 43)%N then read_unsigned_decimal false rest
      else read_unsigned_decimal false s
  | [] => None
  end.

(** Value of a digit in the given radix, if it is one. *)
Definition radix_digit (radix : Z) (c : N) : option Z :=
  let v :=
    if is_digit c then Z.of_N c - 48
    else if ((97 <=? c) && (c <=? 122))%N then Z.of_N c - 87
    else if ((65 <=? c) && (c <=? 90))%N then Z.of_N c - 55
    else 36 in
  if v <? radix then Some v else None.

Fixpoint read_radix_all (radix : Z) (acc : Z) (s : jsstring) : option Z :=
  match s with
  | [] => Some acc
  | c :: rest =>
      match radix_digit radix c with
      | Some v => read_radix_all radix (radix * acc + v) rest
      | None => None
      end
  end.

(** [NonDecimalIntegerLiteral]: [0x], [0o] or [0b] and at least one
    digit of that radix, nothing else. *)
Definition read_non_decimal (s : jsstring) : option number :=
  match s with
  | zero :: x :: d :: rest =>
      if (zero =? 48)%N then
        let radix :=
          if ((x =? 120) || (x =? 88))%N then 16
          else if ((x =? 111) || (x =? 79))%N then 8
          else if ((x =? 98) || (x =? 66))%N then 2
          else 0 in
        if radix =? 0 then None
        else of_Z <$> read_radix_all radix 0 (d :: rest)
      else None
  | _ => None
  end.

(** StringToNumber: the whole string, trimmed, must be a
    [StrNumericLiteral]; the empty string is [+0]. *)
Definition StringToNumber (s : jsstring) : number :=
  match trim_end (trim_start s) with
  | [] => S754_zero false
  | t =>
      match read_non_decimal t with
      | Some x => x
      | None =>
          match read_decimal t with
          | Some (x, []) => x
          | _ => NaN
          end
      end
  end.

(** [parseFloat] on a string: leading white space is skipped and the
    longest prefix that is a [StrDecimalLiteral] is read. *)
Definition parseFloat_string (s : jsstring) : number :=
  match read_decimal (trim_start s) with
  | Some (x, _) => x
  | None => NaN
  end.

(** [parseInt(s, 10)] on a string: leading white space, an optional
    sign, then the longest run of decimal digits.  With radix 10 no
    [0x] prefix is recognised. *)
Definition parseInt10_string (s : jsstring) : number :=
  let t := trim_start s in
  let '(neg, t') :=
    match t with
    | c :: r => if (c =? 45)%N then (true, r)
                else if (c =? 43)%N then (false, r) else (false, t)
    | [] => (false, t)
    end in
  let '(v, count, _) := read_digits 0 0 t' in
  if count =? 0 then NaN else of_decimal neg v 0.

(** *** [Math.floor] *)

Definition Math_floor (x : number) : number :=
  match x with
  | S754_finite s m e =>
      if 0 <=? e then x
      else
        let q := Zpos m / 2 ^ (- e) in
        let r := Zpos m mod 2 ^ (- e) in
        if s then of_Z (- (if r =? 0 then q else q + 1)) else of_Z q
  | _ => x
  end.

(** *** [Number.prototype.toFixed] *)

(** [n / 10^f] written with exactly [f] digits after the point. *)
Definition fixed_digits (f n : Z) : jsstring :=
  let m := digits_of n in
  if f =? 0 then m
  else
    let k := Z.of_nat (length m) in
    let m' := if k <=? f then zeros (f + 1 - k) ++ m else m in
    let k' := Z.of_nat (length m') in
    take (Z.to_nat (k' - f)) m' ++ lit "." ++ drop (Z.to_nat (k' - f)) m'.

(** The integer [n] with [n / 10^f] closest to [m * 2^e]; of two, the
    larger. *)
Definition round_scaled (f : Z) (m : positive) (e : Z) : Z :=
  if 0 <=? e then Zpos m * 2 ^ e * 10 ^ f
  else (2 * Zpos m * 10 ^ f + 2 ^ (- e)) / (2 * 2 ^ (- e)).

(** Is [m * 2^e >= 10^21]? *)
Definition at_least_1e21 (m : positive) (e : Z) : bool :=
  if 0 <=? e then 10 ^ 21 <=? Zpos m * 2 ^ e
  else 10 ^ 21 * 2 ^ (- e) <=? Zpos m.

Definition toFixed (x : number) (fractionDigits : Z) : result jsstring :=
  if (fractionDigits <? 0) || (100 <? fractionDigits) then Throw RangeError
  else
    match x with
    | S754_nan | S754_infinity _ => Ok (Number_toString x)
    | S754_zero _ => Ok (fixed_digits fractionDigits 0)
    | S754_finite s m e =>
        let sign := if s then lit "-" else [] in
        if at_least_1e21 m e then Ok (sign ++ positive_toString m e)
        else Ok (sign ++ fixed_digits fractionDigits (round_scaled fractionDigits m e))
    end.

(** ** Values

    What [express.json()] can put into [req.body]: the JSON values, and
    [undefined] for a property that is not there. *)

#[warnings="-register-all"]
Inductive JsValue :=
| JUndefined
| JNull
| JBool (b : bool)
| JNum (x : number)
| JStr (s : jsstring)
| JArr (items : list JsValue)
| JObj (props : gmap jsstring JsValue).

(** Property read [o.k] on a parsed JSON object. *)
Definition get (o : gmap jsstring JsValue) (k : string) : JsValue :=
  default JUndefined (o !! lit k).

Definition ToBoolean (v : JsValue) : bool :=
  match v with
  | JUndefined | JNull => false
  | JBool b => b
  | JNum (S754_zero _) | JNum S754_nan => false
  | JNum _ => true
  | JStr [] => false
  | JStr _ => true
  | JArr _ | JObj _ => true
  end.

(** ToString.  An array is joined with commas, [null] elements giving
    the empty string.  A parsed object has only data properties: its
    own [toString], if any, is not callable and hides the inherited
    one, and then no method yields a primitive. *)
Fixpoint ToString (v : JsValue) : result jsstring :=
  match v with
  | JUndefined => Ok (lit "undefined")
  | JNull => Ok (lit "null")
  | JBool b => Ok (lit (if b then "true" else "false"))
  | JNum x => Ok (Number_toString x)
  | JStr s => Ok s
  | JArr items =>
      let element (x : JsValue) : result jsstring :=
        match x with
        | JUndefined | JNull => Ok []
        | _ => ToString x
        end in
      (fix join (l : list JsValue) : result jsstring :=
         match l with
         | [] => Ok []
         | [x] => element x
         | x :: rest =>
             s ← element x; r ← join rest; Ok (s ++ lit "," ++ r)
         end) items
  | JObj props =>
      match props !! lit "toString" with
      | Some _ => Throw TypeError
      | None => Ok (lit "[object Object]")
      end
  end.

(** ToPrimitive.  For arrays and parsed objects both hints end in the
    same string, or in the same [TypeError]. *)
Definition ToPrimitive (v : JsValue) : result JsValue :=
  match v with
  | JArr _ | JObj _ => s ← ToString v; Ok (JStr s)
  | _ => Ok v
  end.

Definition ToNumber (v : JsValue) : result number :=
  p ← ToPrimitive v;
  Ok match p with
     | JUndefined => NaN
     | JNull => S754_zero false
     | JBool b => if b then of_Z 1 else S754_zero false
     | JNum x => x
     | JStr s => StringToNumber s
     | JArr _ | JObj _ => NaN
     end.

(** The relational operators with a Number on the right. *)
Definition js_lt (v : JsValue) (y : number) : result bool :=
  x ← ToNumber v; Ok (num_lt x y).
Definition js_le (v : JsValue) (y : number) : result bool :=
  x ← ToNumber v; Ok (num_le x y).
Definition js_gt (v : JsValue) (y : number) : result bool :=
  x ← ToNumber v; Ok (num_gt x y).

(** The global functions, which coerce their argument first. *)
Definition parseFloat (v : JsValue) : result number :=
  s ← ToString v; Ok (parseFloat_string s).

Definition parseInt10 (v : JsValue) : result number :=
  s ← ToString v; Ok (parseInt10_string s).

Definition isFinite (v : JsValue) : result bool :=
  x ← ToNumber v; Ok (num_isFinite x).

(** ** Responses

    A response is the status given to [res.status] and the object given
    to [res.json].  ([JSON.stringify] then writes a Number that is NaN
    or infinite as [null].) *)

Record AffordabilityResult := {
  initialCosts : number;
  totalMonthlyCost : number;
  totalCostOverTime : number;
  affordabilityDuration : number;
  canAfford : bool;
  additionalMonthlyIncomeNeeded : JsValue;
}.

(** A row of the [feedback] table, as [RETURNING *] gives it back. *)
Record FeedbackRecord := {
  record_id : Z;
  content : jsstring;
}.

(** An entry of express-validator's [errors.array()]. *)
Record ValidationError := {
  msg : jsstring;
  path : jsstring;
}.

Inductive Body :=
| ErrorBody (error : jsstring)
| ErrorsBody (errors : list ValidationError)
| ResultBody (r : AffordabilityResult)
| RecordBody (row : option FeedbackRecord).

Record Response := {
  status : Z;
  body : Body;
}.

Definition respond (code : Z) (b : Body) : result Response :=
  Ok {| status := code; body := b |}.

(** ** POST /validate *)

Definition isNumeric (value : JsValue) : result bool :=
  x ← parseFloat value;
  if negb (isNaN x) then isFinite value else Ok false.

Definition fieldLabels : gmap jsstring jsstring :=
  list_to_map [
    (lit "movingAndSetupCost", lit "Moving & Setup Costs");
    (lit "monthlyLivingCost", lit "Monthly Living Costs");
    (lit "rent", lit "Monthly Rent");
    (lit "securityDeposit", lit "Security Deposit");
    (lit "totalMonthlyIncome", lit "Total Monthly Income");
    (lit "totalSavings", lit "Total Savings");
    (lit "monthsToEvaluate", lit "Months to Evaluate")
  ].

(** [fieldLabels[key] || key], for the keys of [parameters]. *)
Definition label_of (key : jsstring) : jsstring :=
  match fieldLabels !! key with
  | Some l => if ToBoolean (JStr l) then l else key
  | None => key
  end.

(** The three shapes of presence/range condition; [true] rejects.
    [||] does not evaluate its right operand when the left one holds. *)

(** [!v || v < 0] *)
Definition missing_or_negative (v : JsValue) : result bool :=
  if negb (ToBoolean v) then Ok true else js_lt v (of_Z 0).

(** [!v || v <= 0] *)
Definition missing_or_not_positive (v : JsValue) : result bool :=
  if negb (ToBoolean v) then Ok true else js_le v (of_Z 0).

(** [!v || v < 1 || v > 60] *)
Definition missing_or_out_of_range (v : JsValue) : result bool :=
  if negb (ToBoolean v) then Ok true
  else
    below ← js_lt v (of_Z 1);
    if below : bool then Ok true else js_gt v (of_Z 60).

(** The loop over [Object.entries(parameters)]: the first entry that is
    not numeric ends the request; [next] is the code after the loop. *)
Fixpoint check_numeric (entries : list (jsstring * JsValue))
    (next : result Response) : result Response :=
  match entries with
  | [] => next
  | (key, value) :: rest =>
      numeric ← isNumeric value;
      if numeric : bool then check_numeric rest next
      else respond 400 (ErrorBody (label_of key ++ lit " must be a valid number."))
  end.

(** The body of the [try] block. *)
Definition calculate (numMovingAndSetupCost numMonthlyLivingCost numRent
    numSecurityDeposit numTotalMonthlyIncome numTotalSavings
    numMonthsToEvaluate : number) : result AffordabilityResult :=
  let initialCosts := num_add numMovingAndSetupCost numSecurityDeposit in
  let totalMonthlyCost := num_add numMonthlyLivingCost numRent in
  let totalCostOverTime :=
    num_add initialCosts (num_mul totalMonthlyCost numMonthsToEvaluate) in
  let totalFundsAvailable :=
    num_add numTotalSavings (num_mul numTotalMonthlyIncome numMonthsToEvaluate) in
  let canAfford := num_ge totalFundsAvailable totalCostOverTime in
  additionalMonthlyIncomeNeeded ←
    (if canAfford then Ok (JNum (of_Z 0))
     else
       s ← toFixed
             (num_sub
                (num_div (num_sub totalCostOverTime numTotalSavings)
                   numMonthsToEvaluate)
                numTotalMonthlyIncome) 2;
       Ok (JStr s));
  Ok {|
    initialCosts := initialCosts;
    totalMonthlyCost := totalMonthlyCost;
    totalCostOverTime := totalCostOverTime;
    affordabilityDuration :=
      Math_floor (num_div totalFundsAvailable totalMonthlyCost);
    canAfford := canAfford;
    additionalMonthlyIncomeNeeded := additionalMonthlyIncomeNeeded;
  |}.

(** The handler.  [Throw] is an exception that leaves the handler (the
    checks and conversions stand outside the [try] block); the [catch]
    clause also writes the error to the console. *)
Definition validate (req_body : gmap jsstring JsValue) : result Response :=
  let movingAndSetupCost := get req_body "movingAndSetupCost" in
  let monthlyLivingCost := get req_body "monthlyLivingCost" in
  let rent := get req_body "rent" in
  let securityDeposit := get req_body "securityDeposit" in
  let totalMonthlyIncome := get req_body "totalMonthlyIncome" in
  let totalSavings := get req_body "totalSavings" in
  let monthsToEvaluate := get req_body "monthsToEvaluate" in
  bad ← missing_or_negative movingAndSetupCost;
  if bad : bool then
    respond 400 (ErrorBody (lit "Invalid moving and setup costs provided."))
  else
  bad ← missing_or_negative monthlyLivingCost;
  if bad : bool then
    respond 400 (ErrorBody (lit "Invalid monthly living costs provided."))
  else
  bad ← missing_or_not_positive rent;
  if bad : bool then
    respond 400 (ErrorBody (lit "Invalid rent provided."))
  else
  bad ← missing_or_out_of_range monthsToEvaluate;
  if bad : bool then
    respond 400 (ErrorBody (lit "Months To Evaluate must be between 1 and 60."))
  else
  bad ← missing_or_negative securityDeposit;
  if bad : bool then
    respond 400 (ErrorBody (lit "Invalid security deposit provided."))
  else
  bad ← missing_or_not_positive totalMonthlyIncome;
  if bad : bool then
    respond 400 (ErrorBody (lit "Invalid total monthly income provided."))
  else
  bad ← missing_or_negative totalSavings;
  if bad : bool then
    respond 400 (ErrorBody (lit "Invalid total savings provided."))
  else
  let parameters := [
    (lit "movingAndSetupCost", movingAndSetupCost);
    (lit "monthlyLivingCost", monthlyLivingCost);
    (lit "rent", rent);
    (lit "securityDeposit", securityDeposit);
    (lit "totalMonthlyIncome", totalMonthlyIncome);
    (lit "totalSavings", totalSavings);
    (lit "monthsToEvaluate", monthsToEvaluate)
  ] in
  check_numeric parameters (
    numMovingAndSetupCost ← parseFloat movingAndSetupCost;
    numMonthlyLivingCost ← parseFloat monthlyLivingCost;
    numRent ← parseFloat rent;
    numSecurityDeposit ← parseFloat securityDeposit;
    numTotalMonthlyIncome ← parseFloat totalMonthlyIncome;
    numTotalSavings ← parseFloat totalSavings;
    numMonthsToEvaluate ← parseInt10 monthsToEvaluate;
    match
      calculate numMovingAndSetupCost numMonthlyLivingCost numRent
        numSecurityDeposit numTotalMonthlyIncome numTotalSavings
        numMonthsToEvaluate
    with
    | Ok response => respond 200 (ResultBody response)
    | Throw _ => respond 500 (ErrorBody (lit "Error processing your request."))
    end).

(** ** POST /feedback *)

(** *** The sanitizers of validator.js *)

(** [trim(str)]: white space is removed from both ends. *)
Definition trim (s : jsstring) : jsstring := trim_end (trim_start s).

(** [str.replace(/c/g, by)] *)
Definition replace_all (c : N) (by_ : jsstring) (s : jsstring) : jsstring :=
  flat_map (fun x => if (x =? c)%N then by_ else [x]) s.

(** [escape(str)]: the replacements in the library's order. *)
Definition escape (s : jsstring) : jsstring :=
  replace_all 96 (lit "&#96;")
    (replace_all 92 (lit "&#x5C;")
       (replace_all 47 (lit "&#x2F;")
          (replace_all 62 (lit "&gt;")
             (replace_all 60 (lit "&lt;")
                (replace_all 39 (lit "&#x27;")
                   (replace_all 34 (lit "&quot;")
                      (replace_all 38 (lit "&amp;") s))))))).

(** *** An express-validator chain

    A chain is a list of steps on one field.  A sanitizer replaces the
    field's value; a validator leaves it and records an error when it
    fails.  [validationResult] holds the recorded errors. *)

Inductive ChainStep :=
| Sanitizer (f : jsstring -> jsstring)
| Validator (holds : jsstring -> bool) (message : jsstring).

Fixpoint run_chain (steps : list ChainStep) (field : jsstring)
    (value : jsstring) : jsstring * list ValidationError :=
  match steps with
  | [] => (value, [])
  | Sanitizer f :: rest => run_chain rest field (f value)
  | Validator holds message :: rest =>
      let '(value', errors) := run_chain rest field value in
      if holds value then (value', errors)
      else (value', {| msg := message; path := field |} :: errors)
  end.

(** [body("feedback").trim().escape()] *)
Definition feedback_chain : list ChainStep := [Sanitizer trim; Sanitizer escape].

(** *** The connection pool *)

Inductive QueryResult :=
| Rows (rows : list FeedbackRecord)
| QueryError (detail : jsstring).

(** [pool.query(text, values)] against a database in state [Db]: the
    rows of the result or the error the promise is rejected with, and
    the state afterwards. *)
Class Pool (Db : Type) := {
  query : Db -> jsstring -> list jsstring -> QueryResult * Db;
}.

(** *** The console *)

Inductive LogArg :=
| LogText (s : jsstring)
| LogRow (row : option FeedbackRecord)
| LogFailure (detail : jsstring).

Inductive LogLine :=
| console_log (message : jsstring) (arg : LogArg)
| console_error (message : jsstring) (arg : LogArg).

(** What a request leaves behind: the response, the database and the
    lines written to the console. *)
Record Outcome (Db : Type) := {
  response : Response;
  database : Db;
  console : list LogLine;
}.
Arguments response {Db} _.
Arguments database {Db} _.
Arguments console {Db} _.

Definition insert_feedback : jsstring :=
  lit "INSERT INTO feedback (content) VALUES ($1) RETURNING *".

(** The handler, after the chain has run as middleware.  The 201 body is
    [result.rows[0]]. *)
Definition feedback `{Pool Db} (db : Db) (text : jsstring) : Outcome Db :=
  let '(feedback, errors) := run_chain feedback_chain (lit "feedback") text in
  match errors with
  | _ :: _ =>
      {| response := {| status := 400; body := ErrorsBody errors |};
         database := db;
         console := [] |}
  | [] =>
      let received := console_log (lit "Received feedback:") (LogText feedback) in
      match query db insert_feedback [feedback] with
      | (Rows rows, db') =>
          {| response := {| status := 201; body := RecordBody (head rows) |};
             database := db';
             console :=
               [received;
                console_log (lit "Feedback saved successfully:") (LogRow (head rows))] |}
      | (QueryError detail, db') =>
          {| response :=
               {| status := 500; body := ErrorBody (lit "Internal server error") |};
             database := db';
             console :=
               [received;
                console_error (lit "Error saving feedback:") (LogFailure detail)] |}
      end
  end.

(** *** Two pools to run the handler on *)

(** A table kept in memory: the insert statement appends a row with the
    next identifier and returns it. *)
#[global] Instance table_pool : Pool (list FeedbackRecord) := {
  query table text values :=
    match values with
    | [value] =>
        let row := {| record_id := Z.of_nat (length table) + 1; content := value |} in
        (Rows [row], table ++ [row])
    | _ => (QueryError (lit "bind message supplies the wrong number of parameters"), table)
    end;
}.

(** A database that cannot be reached. *)
Inductive Unreachable := unreachable.

#[global] Instance unreachable_pool : Pool Unreachable := {
  query db text values := (QueryError (lit "connect ECONNREFUSED: " ++ text), db);
}.

(** * The handlers against their specification *)

Arguments lit : simpl never.
Arguments get : simpl never.

(** ** The checks of /validate, as tables

    The presence/range conditions in the order of the handler's [if]
    statements, each with the message of its 400 response. *)
Definition range_rules : list (string * (JsValue -> result bool) * jsstring) := [
  ("movingAndSetupCost", missing_or_negative,
   lit "Invalid moving and setup costs provided.");
  ("monthlyLivingCost", missing_or_negative,
   lit "Invalid monthly living costs provided.");
  ("rent", missing_or_not_positive,
   lit "Invalid rent provided.");
  ("monthsToEvaluate", missing_or_out_of_range,
   lit "Months To Evaluate must be between 1 and 60.");
  ("securityDeposit", missing_or_negative,
   lit "Invalid security deposit provided.");
  ("totalMonthlyIncome", missing_or_not_positive,
   lit "Invalid total monthly income provided.");
  ("totalSavings", missing_or_negative,
   lit "Invalid total savings provided.")
]%string.

(** First failure wins: the message of the first rule, in the order of
    the table, that rejects its field. *)
Fixpoint first_failure (rules : list (string * (JsValue -> result bool) * jsstring))
    (b : gmap jsstring JsValue) : result (option jsstring) :=
  match rules with
  | [] => Ok None
  | (key, rejects, message) :: rest =>
      bad ← rejects (get b key);
      if bad : bool then Ok (Some message) else first_failure rest b
  end.

(** The [parameters] object of the handler, in insertion order. *)
Definition parameters (b : gmap jsstring JsValue) : list (jsstring * JsValue) := [
  (lit "movingAndSetupCost", get b "movingAndSetupCost");
  (lit "monthlyLivingCost", get b "monthlyLivingCost");
  (lit "rent", get b "rent");
  (lit "securityDeposit", get b "securityDeposit");
  (lit "totalMonthlyIncome", get b "totalMonthlyIncome");
  (lit "totalSavings", get b "totalSavings");
  (lit "monthsToEvaluate", get b "monthsToEvaluate")
].

(** The key of the first entry that is not numeric. *)
Fixpoint first_not_numeric (entries : list (jsstring * JsValue))
    : result (option jsstring) :=
  match entries with
  | [] => Ok None
  | (key, value) :: rest =>
      numeric ← isNumeric value;
      if numeric : bool then first_not_numeric rest else Ok (Some key)
  end.

(** A request passes validation when no presence/range rule rejects a
    field and every parameter is numeric. *)
Definition passes_validation (b : gmap jsstring JsValue) : Prop :=
  first_failure range_rules b = Ok None /\
  first_not_numeric (parameters b) = Ok None.

(** The validated numbers: the handler's seven conversions. *)
Record Converted := {
  numMovingAndSetupCost : number;
  numMonthlyLivingCost : number;
  numRent : number;
  numSecurityDeposit : number;
  numTotalMonthlyIncome : number;
  numTotalSavings : number;
  numMonthsToEvaluate : number;
}.

Definition convert (b : gmap jsstring JsValue) : result Converted :=
  numMovingAndSetupCost ← parseFloat (get b "movingAndSetupCost");
  numMonthlyLivingCost ← parseFloat (get b "monthlyLivingCost");
  numRent ← parseFloat (get b "rent");
  numSecurityDeposit ← parseFloat (get b "securityDeposit");
  numTotalMonthlyIncome ← parseFloat (get b "totalMonthlyIncome");
  numTotalSavings ← parseFloat (get b "totalSavings");
  numMonthsToEvaluate ← parseInt10 (get b "monthsToEvaluate");
  Ok {|
    numMovingAndSetupCost := numMovingAndSetupCost;
    numMonthlyLivingCost := numMonthlyLivingCost;
    numRent := numRent;
    numSecurityDeposit := numSecurityDeposit;
    numTotalMonthlyIncome := numTotalMonthlyIncome;
    numTotalSavings := numTotalSavings;
    numMonthsToEvaluate := numMonthsToEvaluate;
  |}.

Definition calculate_for (i : Converted) : result AffordabilityResult :=
  calculate (numMovingAndSetupCost i) (numMonthlyLivingCost i) (numRent i)
    (numSecurityDeposit i) (numTotalMonthlyIncome i) (numTotalSavings i)
    (numMonthsToEvaluate i).

(** The quantities of the calculation, in the words of the specification. *)
Definition totalFundsAvailable (i : Converted) : number :=
  num_add (numTotalSavings i) (num_mul (numTotalMonthlyIncome i) (numMonthsToEvaluate i)).

Definition spec_totalCostOverTime (i : Converted) : number :=
  num_add (num_add (numMovingAndSetupCost i) (numSecurityDeposit i))
    (num_mul (num_add (numMonthlyLivingCost i) (numRent i)) (numMonthsToEvaluate i)).

(** [(totalCostOverTime - totalSavings) / monthsToEvaluate - totalMonthlyIncome] *)
Definition shortfall (i : Converted) : number :=
  num_sub
    (num_div (num_sub (spec_totalCostOverTime i) (numTotalSavings i))
       (numMonthsToEvaluate i))
    (numTotalMonthlyIncome i).

(** Is [s] a decimal numeral with exactly two digits after the point
    (an optional minus sign, at least one digit, the point, two digits)? *)
Definition two_decimals (s : jsstring) : bool :=
  let unsigned :=
    match s with
    | c :: rest => if (c =? 45)%N then rest else s
    | [] => s
    end in
  match rev unsigned with
  | d2 :: d1 :: point :: int =>
      is_digit d2 && is_digit d1 && (point =? 46)%N
      && negb (bool_decide (int = [])) && forallb is_digit int
  | _ => false
  end.

(** Is [x] finite and below [10^21] in magnitude?  This is the range in
    which [toFixed] writes fixed-point digits. *)
Definition below_1e21 (x : number) : bool :=
  match x with
  | S754_zero _ => true
  | S754_finite _ m e => negb (at_least_1e21 m e)
  | _ => false
  end.

(** ** Requests used as examples *)

Definition request (movingAndSetupCost monthlyLivingCost rent securityDeposit
    totalMonthlyIncome totalSavings monthsToEvaluate : JsValue)
    : gmap jsstring JsValue :=
  list_to_map [
    (lit "movingAndSetupCost", movingAndSetupCost);
    (lit "monthlyLivingCost", monthlyLivingCost);
    (lit "rent", rent);
    (lit "securityDeposit", securityDeposit);
    (lit "totalMonthlyIncome", totalMonthlyIncome);
    (lit "totalSavings", totalSavings);
    (lit "monthsToEvaluate", monthsToEvaluate)
  ].

Definition int (z : Z) : JsValue := JNum (of_Z z).

(** The specification's first example. *)
Definition spec_example : gmap jsstring JsValue :=
  request (int 1000) (int 200) (int 1500) (int 1500) (int 4000) (int 5000) (int 6).

(** The same with [totalMonthlyIncome: 500]. *)
Definition spec_example_low_income : gmap jsstring JsValue :=
  request (int 1000) (int 200) (int 1500) (int 1500) (int 500) (int 5000) (int 6).

(** [movingAndSetupCost: 1e30], one month. *)
Definition huge_moving_cost : gmap jsstring JsValue :=
  request (JNum (of_decimal false 1 30)) (int 200) (int 1500) (int 1500)
    (int 500) (int 5000) (int 1).

(** [monthsToEvaluate: 100] and no [movingAndSetupCost]. *)
Definition long_period_no_moving_cost : gmap jsstring JsValue :=
  list_to_map [
    (lit "monthlyLivingCost", int 200);
    (lit "rent", int 1500);
    (lit "securityDeposit", int 1500);
    (lit "totalMonthlyIncome", int 4000);
    (lit "totalSavings", int 5000);
    (lit "monthsToEvaluate", int 100)
  ].

(** The first example with [monthlyLivingCost: "0x1"] and [rent: "0x1"]. *)
Definition hex_costs : gmap jsstring JsValue :=
  request (int 1000) (JStr (lit "0x1")) (JStr (lit "0x1")) (int 1500)
    (int 4000) (int 5000) (int 6).

(** The first example with [securityDeposit: "abc"] and
    [monthsToEvaluate: "abc"]. *)
Definition words_for_deposit_and_months : gmap jsstring JsValue :=
  request (int 1000) (int 200) (int 1500) (JStr (lit "abc"))
    (int 4000) (int 5000) (JStr (lit "abc")).

(** The field order the specification states for validation failures. *)
Definition specified_order : list string := [
  "movingAndSetupCost"; "monthlyLivingCost"; "rent"; "monthsToEvaluate";
  "securityDeposit"; "totalMonthlyIncome"; "totalSavings"
]%string.

(** * The rest of [server.js] *)

(** ** What /validate reads *)

(** The seven properties the handler takes from [req.body]. *)
Definition request_fields : list string := [
  "movingAndSetupCost"; "monthlyLivingCost"; "rent"; "securityDeposit";
  "totalMonthlyIncome"; "totalSavings"; "monthsToEvaluate"
]%string.

(** Is [v] a primitive value (not an array, not an object)? *)
Definition primitive (v : JsValue) : bool :=
  match v with
  | JArr _ | JObj _ => false
  | _ => true
  end.

(** ** What /feedback stores *)

(** What [escape] writes for one code unit. *)
Definition escape_char (c : N) : jsstring :=
  if (c =? 38)%N then lit "&amp;"
  else if (c =? 34)%N then lit "&quot;"
  else if (c =? 39)%N then lit "&#x27;"
  else if (c =? 60)%N then lit "&lt;"
  else if (c =? 62)%N then lit "&gt;"
  else if (c =? 47)%N then lit "&#x2F;"
  else if (c =? 92)%N then lit "&#x5C;"
  else if (c =? 96)%N then lit "&#96;"
  else [c].

(** The code units [escape] replaces, the ampersand apart: the two
    quotes, the angle brackets, the slashes and the backtick. *)
Definition markup_char (c : N) : bool :=
  ((c =? 34) || (c =? 39) || (c =? 60) || (c =? 62) || (c =? 47)
   || (c =? 92) || (c =? 96))%N.

(** Does [s] begin or end with white space? *)
Definition surrounded (s : jsstring) : bool :=
  match s with
  | [] => false
  | c :: rest => is_whitespace c || is_whitespace (List.last rest c)
  end.

(** One call of [pool.query]: its text and its bound values. *)
Record Call := {
  call_text : jsstring;
  call_values : list jsstring;
}.

(** Any pool, with a journal of the calls made on it. *)
#[global] Instance journal_pool `{Pool Db} : Pool (Db * list Call) := {
  query state text values :=
    let '(outcome, db') := query state.1 text values in
    (outcome,
     (db', state.2 ++ [{| call_text := text; call_values := values |}]));
}.

(** ** The middleware of the later version *)

(** What the middleware reads of a request: [req.method] and
    [req.headers.origin]. *)
Record Request := {
  method : jsstring;
  origin_header : option jsstring;
}.

Definition allowedOrigins : list jsstring := [
  lit "http://localhost:3000";
  lit "http://localhost:3001";
  lit "https://apartment-affordability-checker.vercel.app";
  lit "https://apartment-affordability-checker-pascal-georges-projects.vercel.app";
  lit "https://apartment-cost-analyzer-backend.vercel.app"
].

(** [allowedOrigins.includes(origin)], [origin] a string or [undefined]. *)
Definition includes (l : list jsstring) (origin : option jsstring) : bool :=
  match origin with
  | Some o => bool_decide (o ∈ l)
  | None => false
  end.

(** Why a request did not get through a layer: an identifier that is
    bound in no enclosing scope, an error given to [next], or an
    exception of a handler. *)
Inductive AppError :=
| ReferenceError (identifier : string)
| NextError (message : jsstring)
| Uncaught (e : Exn).

(** What is sent: a bare status ([res.sendStatus]) or a JSON response. *)
Inductive Reply :=
| StatusOnly (code : Z)
| Json (r : Response).

(** What a layer does with the response headers set so far: it calls
    [next()], ends the response, or fails. *)
Inductive Step :=
| Continue (headers : gmap jsstring JsValue)
| Finish (headers : gmap jsstring JsValue) (reply : Reply)
| Raise (e : AppError).

Definition Layer : Type := Request -> gmap jsstring JsValue -> Step.

(** The first [app.use]: the CORS headers, written by hand. *)
Definition cors_headers : Layer := fun req headers =>
  let origin := origin_header req in
  let headers :=
    if includes allowedOrigins origin
    then <[lit "Access-Control-Allow-Origin" := JStr (default [] origin)]> headers
    else headers in
  let headers :=
    <[lit "Access-Control-Allow-Methods" :=
        JStr (lit "GET, POST, OPTIONS, PUT, PATCH, DELETE")]> headers in
  let headers :=
    <[lit "Access-Control-Allow-Headers" :=
        JStr (lit "X-Requested-With, content-type, Authorization")]> headers in
  let headers := <[lit "Access-Control-Allow-Credentials" := JBool true]> headers in
  if bool_decide (method req = lit "OPTIONS")
  then Finish headers (StatusOnly 204)
  else Continue headers.

(** The names bound at the top level of the module.  [allowedOrigins]
    is not among them: it is a [const] of the first middleware's body. *)
Definition module_scope : list string := [
  "dotenv"; "express"; "cors"; "pg"; "body"; "validationResult";
  "app"; "Pool"; "pool"; "isNumeric"; "fieldLabels"; "PORT"
]%string.

(** What the [origin] option does with its [callback]: the arguments it
    calls it with, or the failure before any call. *)
Inductive OriginOutcome :=
| callback (err : option jsstring) (allow : bool)
| Fails (e : AppError).

(** The [origin] function given to [cors(...)].  Its own scope holds
    [origin] and [callback]; around it is the module. *)
Definition origin_option (origin : option jsstring) : OriginOutcome :=
  if bool_decide ("allowedOrigins"%string ∈ ["origin"; "callback"]%string ++ module_scope)
  then
    if includes allowedOrigins origin || negb (bool_decide (is_Some origin))
    then callback None true
    else callback (Some (lit "Not allowed by CORS")) false
  else Fails (ReferenceError "allowedOrigins").

(** The middleware [cors(options)] builds around an [origin] function:
    it calls the function with the request's origin; an error goes to
    [next], a refusal skips the headers, and otherwise the library
    writes its headers ([write_headers]). *)
Definition cors_middleware (write_headers : Layer) : Layer := fun req headers =>
  match origin_option (origin_header req) with
  | Fails e => Raise e
  | callback (Some message) _ => Raise (NextError message)
  | callback None false => Continue headers
  | callback None true => write_headers req headers
  end.

(** What becomes of a request. *)
Inductive Served :=
| Answered (headers : gmap jsstring JsValue) (reply : Reply)
| Errored (e : AppError)
| Unhandled (headers : gmap jsstring JsValue).

(** Express runs the layers in the order of registration, until one
    ends the response or fails. *)
Fixpoint dispatch (layers : list Layer) (req : Request)
    (headers : gmap jsstring JsValue) : Served :=
  match layers with
  | [] => Unhandled headers
  | layer :: rest =>
      match layer req headers with
      | Continue headers' => dispatch rest req headers'
      | Finish headers' reply => Answered headers' reply
      | Raise e => Errored e
      end
  end.

(** The application of the later version: the two CORS layers, then the
    body parser and the routes ([later]). *)
Definition server (write_headers : Layer) (later : list Layer) : list Layer :=
  cors_headers :: cors_middleware write_headers :: later.

(** ** The earlier version of /validate *)

(** Longest prefix of digits of the given radix, read as an integer,
    with its length. *)
Fixpoint read_radix (radix : Z) (acc count : Z) (s : jsstring) : Z * Z :=
  match s with
  | c :: rest =>
      match radix_digit radix c with
      | Some v => read_radix radix (radix * acc + v) (count + 1) rest
      | None => (acc, count)
      end
  | [] => (acc, count)
  end.

(** [parseInt(s)] on a string, no radix given: leading white space, an
    optional sign, then base 16 after [0x] or [0X] and base 10
    otherwise. *)
Definition parseInt_string (s : jsstring) : number :=
  let t := trim_start s in
  let '(neg, t') :=
    match t with
    | c :: r => if (c =? 45)%N then (true, r)
                else if (c =? 43)%N then (false, r) else (false, t)
    | [] => (false, t)
    end in
  let '(radix, digits) :=
    match t' with
    | zero :: x :: rest =>
        if (zero =? 48)%N && ((x =? 120) || (x =? 88))%N then (16, rest)
        else (10, t')
    | _ => (10, t')
    end in
  let '(v, count) := read_radix radix 0 0 digits in
  if count =? 0 then NaN else of_decimal neg v 0.

Definition parseInt (v : JsValue) : result number :=
  s ← ToString v; Ok (parseInt_string s).

(** [x >= v] with a Number on the left. *)
Definition js_ge_of (x : number) (v : JsValue) : result bool :=
  y ← ToNumber v; Ok (num_ge x y).

Module Detailed.

Definition fieldLabels : gmap jsstring jsstring :=
  list_to_map [
    (lit "movingCost", lit "Moving Cost");
    (lit "rent", lit "Monthly Rent");
    (lit "utilities", lit "Utilities");
    (lit "immediateCost", lit "Immediate Cost");
    (lit "securityDeposit", lit "Security Deposit");
    (lit "netIncome", lit "Net Income");
    (lit "savings", lit "Total Savings");
    (lit "monthsToEvaluate", lit "Months to Evaluate");
    (lit "associatedCost", lit "Associated Cost");
    (lit "otherExpenses", lit "Other Expenses")
  ].

(** [fieldLabels[key] || key], for the keys of [parameters]. *)
Definition label_of (key : jsstring) : jsstring :=
  match fieldLabels !! key with
  | Some l => if ToBoolean (JStr l) then l else key
  | None => key
  end.

Fixpoint check_numeric (entries : list (jsstring * JsValue))
    (next : result Response) : result Response :=
  match entries with
  | [] => next
  | (key, value) :: rest =>
      numeric ← isNumeric value;
      if numeric : bool then check_numeric rest next
      else respond 400 (ErrorBody (label_of key ++ lit " must be a valid number."))
  end.

(** The body of the [try] block.  The local [canAfford] compares with
    the converted months; the [canAfford] of the response compares with
    [monthsToEvaluate] as it came in the body. *)
Definition calculate (numMovingCost numRent numUtilities numImmediateCost
    numSecurityDeposit numNetIncome numSavings numMonthsToEvaluate
    numAssociatedCost numOtherExpenses : number) (monthsToEvaluate : JsValue)
    : result AffordabilityResult :=
  let initialCosts :=
    num_add (num_add (num_add numMovingCost numImmediateCost) numSecurityDeposit)
      numAssociatedCost in
  let totalMonthlyCost := num_add (num_add numRent numUtilities) numOtherExpenses in
  let totalCostOverTime :=
    num_add initialCosts (num_mul totalMonthlyCost numMonthsToEvaluate) in
  let affordabilityDuration :=
    Math_floor
      (num_div (num_add numSavings (num_mul numNetIncome numMonthsToEvaluate))
         totalMonthlyCost) in
  let canAfford := num_ge affordabilityDuration numMonthsToEvaluate in
  additionalMonthlyIncomeNeeded ←
    (if canAfford then Ok (JNum (of_Z 0))
     else
       s ← toFixed
             (num_sub totalMonthlyCost
                (num_add numNetIncome (num_div numSavings numMonthsToEvaluate))) 2;
       Ok (JStr s));
  canAfford' ← js_ge_of affordabilityDuration monthsToEvaluate;
  Ok {|
    initialCosts := initialCosts;
    totalMonthlyCost := totalMonthlyCost;
    totalCostOverTime := totalCostOverTime;
    affordabilityDuration := affordabilityDuration;
    canAfford := canAfford';
    additionalMonthlyIncomeNeeded := additionalMonthlyIncomeNeeded;
  |}.

Definition validate (req_body : gmap jsstring JsValue) : result Response :=
  let movingCost := get req_body "movingCost" in
  let immediateCost := get req_body "immediateCost" in
  let rent := get req_body "rent" in
  let securityDeposit := get req_body "securityDeposit" in
  let utilities := get req_body "utilities" in
  let associatedCost := get req_body "associatedCost" in
  let netIncome := get req_body "netIncome" in
  let savings := get req_body "savings" in
  let monthsToEvaluate := get req_body "monthsToEvaluate" in
  let otherExpenses := get req_body "otherExpenses" in
  bad ← missing_or_negative movingCost;
  if bad : bool then
    respond 400 (ErrorBody (lit "Invalid moving cost provided."))
  else
  bad ← missing_or_not_positive rent;
  if bad : bool then
    respond 400 (ErrorBody (lit "Invalid rent provided."))
  else
  bad ← missing_or_not_positive utilities;
  if bad : bool then
    respond 400 (ErrorBody (lit "Invalid utilities cost provided."))
  else
  bad ← missing_or_negative immediateCost;
  if bad : bool then
    respond 400 (ErrorBody (lit "Invalid immediate cost provided."))
  else
  bad ← missing_or_out_of_range monthsToEvaluate;
  if bad : bool then
    respond 400 (ErrorBody (lit "Months To Evaluate must be between 1 and 12."))
  else
  bad ← missing_or_negative securityDeposit;
  if bad : bool then
    respond 400 (ErrorBody (lit "Invalid security deposit provided."))
  else
  bad ← missing_or_negative associatedCost;
  if bad : bool then
    respond 400 (ErrorBody (lit "Invalid associated cost provided."))
  else
  bad ← missing_or_not_positive netIncome;
  if bad : bool then
    respond 400 (ErrorBody (lit "Invalid net income provided."))
  else
  bad ← missing_or_negative savings;
  if bad : bool then
    respond 400 (ErrorBody (lit "Invalid savings amount provided."))
  else
  bad ← missing_or_not_positive otherExpenses;
  if bad : bool then
    respond 400 (ErrorBody (lit "Invalid other expenses amount provided."))
  else
  let parameters := [
    (lit "movingCost", movingCost);
    (lit "immediateCost", immediateCost);
    (lit "rent", rent);
    (lit "securityDeposit", securityDeposit);
    (lit "utilities", utilities);
    (lit "associatedCost", associatedCost);
    (lit "netIncome", netIncome);
    (lit "savings", savings);
    (lit "monthsToEvaluate", monthsToEvaluate);
    (lit "otherExpenses", otherExpenses)
  ] in
  check_numeric parameters (
    numMovingCost ← parseFloat movingCost;
    numRent ← parseFloat rent;
    numUtilities ← parseFloat utilities;
    numImmediateCost ← parseFloat immediateCost;
    numSecurityDeposit ← parseFloat securityDeposit;
    numNetIncome ← parseFloat netIncome;
    numSavings ← parseFloat savings;
    numMonthsToEvaluate ← parseInt10 monthsToEvaluate;
    numAssociatedCost ← parseInt associatedCost;
    numOtherExpenses ← parseInt otherExpenses;
    match
      calculate numMovingCost numRent numUtilities numImmediateCost
        numSecurityDeposit numNetIncome numSavings numMonthsToEvaluate
        numAssociatedCost numOtherExpenses monthsToEvaluate
    with
    | Ok response => respond 200 (ResultBody response)
    | Throw _ => respond 500 (ErrorBody (lit "Error processing your request."))
    end).

(** The presence/range conditions in the order of the [if] statements. *)
Definition range_rules : list (string * (JsValue -> result bool) * jsstring) := [
  ("movingCost", missing_or_negative, lit "Invalid moving cost provided.");
  ("rent", missing_or_not_positive, lit "Invalid rent provided.");
  ("utilities", missing_or_not_positive, lit "Invalid utilities cost provided.");
  ("immediateCost", missing_or_negative, lit "Invalid immediate cost provided.");
  ("monthsToEvaluate", missing_or_out_of_range,
   lit "Months To Evaluate must be between 1 and 12.");
  ("securityDeposit", missing_or_negative,
   lit "Invalid security deposit provided.");
  ("associatedCost", missing_or_negative,
   lit "Invalid associated cost provided.");
  ("netIncome", missing_or_not_positive, lit "Invalid net income provided.");
  ("savings", missing_or_negative, lit "Invalid savings amount provided.");
  ("otherExpenses", missing_or_not_positive,
   lit "Invalid other expenses amount provided.")
]%string.

(** The [parameters] object, in insertion order. *)
Definition parameters (b : gmap jsstring JsValue) : list (jsstring * JsValue) := [
  (lit "movingCost", get b "movingCost");
  (lit "immediateCost", get b "immediateCost");
  (lit "rent", get b "rent");
  (lit "securityDeposit", get b "securityDeposit");
  (lit "utilities", get b "utilities");
  (lit "associatedCost", get b "associatedCost");
  (lit "netIncome", get b "netIncome");
  (lit "savings", get b "savings");
  (lit "monthsToEvaluate", get b "monthsToEvaluate");
  (lit "otherExpenses", get b "otherExpenses")
].

Definition passes_validation (b : gmap jsstring JsValue) : Prop :=
  first_failure range_rules b = Ok None /\
  first_not_numeric (parameters b) = Ok None.

(** A request of the earlier version. *)
Definition request (movingCost immediateCost rent securityDeposit utilities
    associatedCost netIncome savings monthsToEvaluate otherExpenses : JsValue)
    : gmap jsstring JsValue :=
  list_to_map [
    (lit "movingCost", movingCost);
    (lit "immediateCost", immediateCost);
    (lit "rent", rent);
    (lit "securityDeposit", securityDeposit);
    (lit "utilities", utilities);
    (lit "associatedCost", associatedCost);
    (lit "netIncome", netIncome);
    (lit "savings", savings);
    (lit "monthsToEvaluate", monthsToEvaluate);
    (lit "otherExpenses", otherExpenses)
  ].

(** Six and a half months, with funds for a little over six. *)
Definition half_month : gmap jsstring JsValue :=
  request (int 500) (int 100) (int 998) (int 1000) (int 1) (int 50)
    (int 1000) (int 100) (JNum (of_decimal false 65 (-1))) (int 1).

End Detailed.

(** ** The built-ins on sample arguments *)

Example toString_integer : Number_toString (of_Z 1500) = lit "1500".
Proof. vm_compute. reflexivity. Qed.

Example toString_fraction :
  Number_toString (num_div (of_Z 7700) (of_Z 6)) = lit "1283.3333333333333".
Proof. vm_compute. reflexivity. Qed.

Example toString_tenth : Number_toString (of_decimal false 1 (-1)) = lit "0.1".
Proof. vm_compute. reflexivity. Qed.

Example toString_exponent : Number_toString (of_decimal false 1 21) = lit "1e+21".
Proof. vm_compute. reflexivity. Qed.

Example toString_small : Number_toString (of_decimal true 15 (-8)) = lit "-1.5e-7".
Proof. vm_compute. reflexivity. Qed.

Example StringToNumber_hex : StringToNumber (lit "0x10") = of_Z 16.
Proof. vm_compute. reflexivity. Qed.

Example StringToNumber_padded : StringToNumber (lit " 12.5 ") = of_decimal false 125 (-1).
Proof. vm_compute. reflexivity. Qed.

Example StringToNumber_blank : StringToNumber (lit "  ") = S754_zero false.
Proof. vm_compute. reflexivity. Qed.

Example StringToNumber_trailing : StringToNumber (lit "12abc") = NaN.
Proof. vm_compute. reflexivity. Qed.

Example parseFloat_hex : parseFloat_string (lit "0x10") = S754_zero false.
Proof. vm_compute. reflexivity. Qed.

Example parseFloat_trailing : parseFloat_string (lit "12abc") = of_Z 12.
Proof. vm_compute. reflexivity. Qed.

Example parseFloat_exponent : parseFloat_string (lit ".5e1") = of_Z 5.
Proof. vm_compute. reflexivity. Qed.

Example parseFloat_blank : parseFloat_string (lit "  ") = NaN.
Proof. vm_compute. reflexivity. Qed.

Example parseInt_fraction : parseInt10_string (lit "6.9") = of_Z 6.
Proof. vm_compute. reflexivity. Qed.

Example parseInt_exponent : parseInt10_string (lit "1e3") = of_Z 1.
Proof. vm_compute. reflexivity. Qed.

Example parseInt_point : parseInt10_string (lit ".5e1") = NaN.
Proof. vm_compute. reflexivity. Qed.

Example floor_fraction : Math_floor (num_div (of_Z 29000) (of_Z 1700)) = of_Z 17.
Proof. vm_compute. reflexivity. Qed.

Example floor_negative : Math_floor (of_decimal true 5 (-1)) = of_Z (-1).
Proof. vm_compute. reflexivity. Qed.

Example toFixed_half_up : toFixed (of_decimal false 25 (-1)) 0 = Ok (lit "3").
Proof. vm_compute. reflexivity. Qed.

Example toFixed_binary : toFixed (of_decimal false 1005 (-3)) 2 = Ok (lit "1.00").
Proof. vm_compute. reflexivity. Qed.

Example toFixed_small_negative : toFixed (of_decimal true 1 (-3)) 2 = Ok (lit "-0.00").
Proof. vm_compute. reflexivity. Qed.

Example toFixed_digits_range : toFixed (of_Z 1) 101 = Throw RangeError.
Proof. vm_compute. reflexivity. Qed.

Example ToString_array :
  ToString (JArr [JNum (of_Z 1); JNull; JArr [JStr (lit "a"); JBool true]; JObj ∅])
  = Ok (lit "1,,a,true,[object Object]").
Proof. vm_compute. reflexivity. Qed.

Example ToNumber_own_toString :
  ToNumber (JObj {[ lit "toString" := JNum (of_Z 1) ]}) = Throw TypeError.
Proof. vm_compute. reflexivity. Qed.

Example escape_markup :
  escape (trim (lit "  <b>Tom & Jerry</b> ")) =
  lit "&lt;b&gt;Tom &amp; Jerry&lt;&#x2F;b&gt;".
Proof. vm_compute. reflexivity. Qed.

(** ** Shared lemmas *)

Lemma check_numeric_first (entries : list (jsstring * JsValue))
    (next : result Response) :
  check_numeric entries next =
  match first_not_numeric entries with
  | Ok None => next
  | Ok (Some key) =>
      respond 400 (ErrorBody (label_of key ++ lit " must be a valid number."))
  | Throw e => Throw e
  end.
Proof.
  induction entries as [|[key value] rest IH]; simpl; [reflexivity|].
  destruct (isNumeric value) as [[|]|e]; simpl; auto.
Qed.

(** The handler, read as two passes over the tables followed by the
    conversions and the [try] block. *)
Lemma validate_cases (b : gmap jsstring JsValue) :
  validate b =
  match first_failure range_rules b with
  | Throw e => Throw e
  | Ok (Some message) => respond 400 (ErrorBody message)
  | Ok None =>
      match first_not_numeric (parameters b) with
      | Throw e => Throw e
      | Ok (Some key) =>
          respond 400 (ErrorBody (label_of key ++ lit " must be a valid number."))
      | Ok None =>
          i ← convert b;
          match calculate_for i with
          | Ok r => respond 200 (ResultBody r)
          | Throw _ =>
              respond 500 (ErrorBody (lit "Error processing your request."))
          end
      end
  end.
Proof.
  unfold validate, range_rules, first_failure.
  repeat
    match goal with
    | |- context [mbind _ (?rule (get b ?key))] =>
        destruct (rule (get b key)) as [[|]|?]; cbn [mbind result_bind];
        try reflexivity
    end.
  rewrite check_numeric_first. fold (parameters b).
  destruct (first_not_numeric (parameters b)) as [[key|]|e]; try reflexivity.
  unfold convert, calculate_for.
  repeat
    match goal with
    | |- context [mbind _ (?f (get b ?key))] =>
        destruct (f (get b key)) as [?|?]; cbn; try reflexivity
    end.
Qed.

Lemma toFixed_2_Ok (x : number) : exists s, toFixed x 2 = Ok s.
Proof.
  unfold toFixed. cbn [Z.ltb Z.compare orb].
  destruct x as [s|s| |s m e]; eauto.
  destruct (at_least_1e21 m e); eauto.
Qed.

(** The [try] block completes: [toFixed] is called with two digits. *)
Lemma calculate_for_Ok (i : Converted) :
  exists s, toFixed (shortfall i) 2 = Ok s /\
  calculate_for i = Ok {|
    initialCosts := num_add (numMovingAndSetupCost i) (numSecurityDeposit i);
    totalMonthlyCost := num_add (numMonthlyLivingCost i) (numRent i);
    totalCostOverTime := spec_totalCostOverTime i;
    affordabilityDuration :=
      Math_floor (num_div (totalFundsAvailable i)
                    (num_add (numMonthlyLivingCost i) (numRent i)));
    canAfford := num_ge (totalFundsAvailable i) (spec_totalCostOverTime i);
    additionalMonthlyIncomeNeeded :=
      if num_ge (totalFundsAvailable i) (spec_totalCostOverTime i)
      then JNum (of_Z 0) else JStr s;
  |}.
Proof.
  destruct (toFixed_2_Ok (shortfall i)) as [s Hs]. exists s. split; [exact Hs|].
  unfold calculate_for, calculate.
  fold (spec_totalCostOverTime i). fold (totalFundsAvailable i).
  destruct (num_ge (totalFundsAvailable i) (spec_totalCostOverTime i)).
  - reflexivity.
  - fold (shortfall i). rewrite Hs. reflexivity.
Qed.

Lemma isNumeric_parseFloat (v : JsValue) :
  isNumeric v = Ok true -> exists s, ToString v = Ok s.
Proof.
  unfold isNumeric, parseFloat. destruct (ToString v) as [s|e]; [eauto|discriminate].
Qed.

Lemma first_not_numeric_None (entries : list (jsstring * JsValue)) :
  first_not_numeric entries = Ok None ->
  Forall (fun entry => isNumeric entry.2 = Ok true) entries.
Proof.
  induction entries as [|[key value] rest IH]; simpl; intros H; [constructor|].
  destruct (isNumeric value) as [[|]|e] eqn:Hv; simpl in H; try discriminate.
  constructor; [exact Hv | auto].
Qed.

(** After the numeric check the seven conversions complete. *)
Lemma numeric_convert (b : gmap jsstring JsValue) :
  first_not_numeric (parameters b) = Ok None -> exists i, convert b = Ok i.
Proof.
  intros H. apply first_not_numeric_None in H. unfold parameters in H.
  repeat
    match goal with
    | H : Forall _ (_ :: _) |- _ =>
        let Hv := fresh "Hv" in
        apply Forall_cons in H; destruct H as [Hv H];
        apply isNumeric_parseFloat in Hv; destruct Hv as [? Hv]; simpl in Hv
    end.
  unfold convert, parseFloat, parseInt10.
  repeat match goal with Hv : ToString _ = Ok _ |- _ => rewrite Hv; clear Hv end.
  simpl. eauto.
Qed.

(** A request that passes validation is answered with status 200 and
    the result of the calculation on the converted numbers. *)
Lemma validate_accepted (b : gmap jsstring JsValue) :
  passes_validation b ->
  exists i r, convert b = Ok i /\ calculate_for i = Ok r /\
              validate b = respond 200 (ResultBody r).
Proof.
  intros [Hrange Hnumeric].
  destruct (numeric_convert b Hnumeric) as [i Hi].
  destruct (calculate_for_Ok i) as (s & _ & Hr).
  eexists i, _. split; [exact Hi|]. split; [exact Hr|].
  rewrite validate_cases, Hrange, Hnumeric, Hi. simpl. rewrite Hr. reflexivity.
Qed.

(** Conversely only such requests are answered with 200, and none with 500. *)
Lemma validate_status (b : gmap jsstring JsValue) (resp : Response) :
  validate b = Ok resp ->
  (status resp = 400 /\ ~ passes_validation b) \/
  (status resp = 200 /\ passes_validation b).
Proof.
  rewrite validate_cases. unfold passes_validation.
  destruct (first_failure range_rules b) as [[message|]|e]; try discriminate.
  { intros [= <-]. left. split; [reflexivity|]. intros [? _]. discriminate. }
  destruct (first_not_numeric (parameters b)) as [[key|]|e] eqn:Hn; try discriminate.
  { intros [= <-]. left. split; [reflexivity|]. intros [_ ?]. discriminate. }
  destruct (numeric_convert b Hn) as [i ->]. simpl.
  destruct (calculate_for_Ok i) as (s & _ & ->).
  intros [= <-]. right. auto.
Qed.

(** For a request that passes validation: name the converted numbers
    [i], the [toFixed] string [s] and the response, with the record of
    the response spelled out. *)
Ltac accepted Hpass i s Hi Hs Hv :=
  let r := fresh "r" in
  let Hr := fresh "Hr" in
  let Hr' := fresh "Hr" in
  destruct (validate_accepted _ Hpass) as (i & r & Hi & Hr & Hv);
  destruct (calculate_for_Ok i) as (s & Hs & Hr');
  rewrite Hr' in Hr; injection Hr as <-.

(** ** The calculation *)

(** C1.  For every request that passes validation the response is a 200
    whose [canAfford] is true exactly when
    [totalSavings + totalMonthlyIncome * monthsToEvaluate] is [>=]
    [initialCosts + totalMonthlyCost * monthsToEvaluate], the response's
    [totalCostOverTime], over the converted numbers.  In the
    specification's examples 29000 covers 12700 and 8000 does not. *)
Theorem canAfford_iff_funds_cover_cost :
  (forall b : gmap jsstring JsValue,
     passes_validation b ->
     exists i r,
       convert b = Ok i /\
       validate b = respond 200 (ResultBody r) /\
       initialCosts r = num_add (numMovingAndSetupCost i) (numSecurityDeposit i) /\
       totalMonthlyCost r = num_add (numMonthlyLivingCost i) (numRent i) /\
       totalCostOverTime r =
         num_add (initialCosts r)
           (num_mul (totalMonthlyCost r) (numMonthsToEvaluate i)) /\
       (canAfford r = true <->
        num_ge
          (num_add (numTotalSavings i)
             (num_mul (numTotalMonthlyIncome i) (numMonthsToEvaluate i)))
          (totalCostOverTime r) = true)) /\
  (exists r,
     validate spec_example = respond 200 (ResultBody r) /\
     totalCostOverTime r = of_Z 12700 /\
     num_add (of_Z 5000) (num_mul (of_Z 4000) (of_Z 6)) = of_Z 29000 /\
     canAfford r = true) /\
  (exists r,
     validate spec_example_low_income = respond 200 (ResultBody r) /\
     totalCostOverTime r = of_Z 12700 /\
     num_add (of_Z 5000) (num_mul (of_Z 500) (of_Z 6)) = of_Z 8000 /\
     canAfford r = false).
Proof.
  split.
  - intros b Hpass. accepted Hpass i s Hi Hs Hv.
    exists i. eexists. split; [exact Hi|]. split; [exact Hv|].
    repeat split; cbn; auto.
  - split; eexists; (split; [vm_compute; reflexivity|]);
      repeat split; vm_compute; reflexivity.
Qed.

(** C1 at the specification's first example. *)
Lemma canAfford_iff_funds_cover_cost_witness :
  passes_validation spec_example /\
  exists i r,
    convert spec_example = Ok i /\
    validate spec_example = respond 200 (ResultBody r) /\
    initialCosts r = num_add (numMovingAndSetupCost i) (numSecurityDeposit i) /\
    totalMonthlyCost r = num_add (numMonthlyLivingCost i) (numRent i) /\
    totalCostOverTime r =
      num_add (initialCosts r)
        (num_mul (totalMonthlyCost r) (numMonthsToEvaluate i)) /\
    (canAfford r = true <->
     num_ge
       (num_add (numTotalSavings i)
          (num_mul (numTotalMonthlyIncome i) (numMonthsToEvaluate i)))
       (totalCostOverTime r) = true).
Proof.
  assert (Hpass : passes_validation spec_example)
    by (split; vm_compute; reflexivity).
  split; [exact Hpass|].
  exact (proj1 canAfford_iff_funds_cover_cost spec_example Hpass).
Defined.

(** *** Two digits after the point *)

Lemma digit_is_digit (n : Z) : is_digit (Z.to_N (48 + n mod 10)) = true.
Proof.
  pose proof (Z.mod_pos_bound n 10 eq_refl).
  unfold is_digit. apply andb_true_intro. split; apply N.leb_le; lia.
Qed.

Lemma digits_of_fuel_digits (fuel : nat) (n : Z) (acc : jsstring) :
  forallb is_digit acc = true ->
  forallb is_digit (digits_of_fuel fuel n acc) = true.
Proof.
  revert n acc. induction fuel as [|f IH]; intros n acc Hacc; simpl; [exact Hacc|].
  assert (forallb is_digit (Z.to_N (48 + n mod 10) :: acc) = true) as Hacc'.
  { simpl. rewrite digit_is_digit. exact Hacc. }
  destruct (n <? 10); [exact Hacc' | apply IH, Hacc'].
Qed.

Lemma digits_of_fuel_length (fuel : nat) (n : Z) (acc : jsstring) :
  (length acc <= length (digits_of_fuel fuel n acc))%nat.
Proof.
  revert n acc. induction fuel as [|f IH]; intros n acc; simpl; [lia|].
  destruct (n <? 10); [simpl; lia|].
  etransitivity; [|apply IH]. simpl. lia.
Qed.

(** The digits written for [n] read back as [n]: the fuel of
    [digits_of] is enough. *)
Lemma digits_of_fuel_value (fuel : nat) (n : Z) (acc : jsstring) (a c : Z) :
  0 <= n < 2 ^ Z.of_nat fuel -> a = 0 ->
  read_digits a c (digits_of_fuel fuel n acc) =
  read_digits n (c + Z.of_nat (length (digits_of_fuel fuel n acc) - length acc)) acc.
Proof.
  revert n acc c. induction fuel as [|f IH]; intros n acc c Hn ->.
  - simpl in *. replace n with 0 by lia.
    rewrite Nat.sub_diag, Z.add_0_r. reflexivity.
  - cbn [digits_of_fuel].
    pose proof (Z.mod_pos_bound n 10 eq_refl) as Hmod.
    pose proof (Z.div_mod n 10 ltac:(lia)) as Hdiv.
    assert (Hstep : forall k count rest,
               read_digits k count (Z.to_N (48 + n mod 10) :: rest) =
               read_digits (10 * k + n mod 10) (count + 1) rest).
    { intros k count rest. cbn [read_digits]. rewrite digit_is_digit.
      unfold digit_value. f_equal. f_equal. lia. }
    destruct (n <? 10) eqn:Hsmall.
    + apply Z.ltb_lt in Hsmall. rewrite Hstep.
      replace (10 * 0 + n mod 10) with n by (rewrite Z.mod_small; lia).
      f_equal. f_equal. simpl length. lia.
    + apply Z.ltb_ge in Hsmall.
      assert (Hfuel : 0 <= n / 10 < 2 ^ Z.of_nat f).
      { split; [apply Z.div_pos; lia|].
        apply Z.div_lt_upper_bound; [lia|].
        rewrite Nat2Z.inj_succ, Z.pow_succ_r in Hn by lia. lia. }
      pose proof (digits_of_fuel_length f (n / 10) (Z.to_N (48 + n mod 10) :: acc))
        as Hlen. simpl length in Hlen.
      rewrite (IH (n / 10) _ c Hfuel eq_refl), Hstep.
      f_equal; [f_equal; lia|]. simpl length. lia.
Qed.

Lemma digits_of_value (n : Z) :
  0 <= n ->
  read_digits 0 0 (digits_of n) = (n, Z.of_nat (length (digits_of n)), []).
Proof.
  intros Hn. unfold digits_of.
  rewrite digits_of_fuel_value; [cbn [read_digits length]; f_equal; f_equal; lia | | reflexivity].
  split; [exact Hn|].
  destruct (Z.eq_dec n 0) as [-> | Hpos]; [reflexivity|].
  rewrite Nat2Z.inj_succ, Z2Nat.id by apply Z.log2_nonneg.
  apply Z.log2_spec. lia.
Qed.

Lemma digits_of_digits (n : Z) : forallb is_digit (digits_of n) = true.
Proof. apply digits_of_fuel_digits. reflexivity. Qed.

Lemma digits_of_nonempty (n : Z) : (1 <= length (digits_of n))%nat.
Proof.
  unfold digits_of. simpl.
  destruct (n <? 10); [simpl; lia|].
  etransitivity; [|apply digits_of_fuel_length]. simpl. lia.
Qed.

Lemma forallb_zeros (n : Z) : forallb is_digit (zeros n) = true.
Proof.
  unfold zeros. induction (Z.to_nat n) as [|k IH]; simpl; [reflexivity|exact IH].
Qed.

(** [fixed_digits 2 n] is at least one digit, the point and two digits. *)
Lemma fixed_digits_2_shape (n : Z) :
  exists int d1 d2,
    fixed_digits 2 n = int ++ [46%N; d1; d2] /\
    int <> [] /\ forallb is_digit int = true /\
    is_digit d1 = true /\ is_digit d2 = true.
Proof.
  unfold fixed_digits. cbn [Z.eqb].
  set (m := digits_of n).
  set (m' := if Z.of_nat (length m) <=? 2
             then zeros (2 + 1 - Z.of_nat (length m)) ++ m else m).
  assert (Hdigits : forallb is_digit m' = true).
  { subst m'. destruct (Z.of_nat (length m) <=? 2).
    - rewrite forallb_app, forallb_zeros. apply digits_of_digits.
    - apply digits_of_digits. }
  assert (Hlen : (3 <= length m')%nat).
  { subst m'. destruct (Z.of_nat (length m) <=? 2) eqn:Hk.
    - apply Z.leb_le in Hk. pose proof (digits_of_nonempty n).
      rewrite length_app. unfold zeros. rewrite repeat_length. fold m in H. lia.
    - apply Z.leb_gt in Hk. lia. }
  clearbody m'. clear m.
  replace (Z.to_nat (Z.of_nat (length m') - 2)) with (length m' - 2)%nat by lia.
  rewrite <- (take_drop (length m' - 2) m') in Hdigits.
  rewrite forallb_app in Hdigits. apply andb_prop in Hdigits as [Hint Hfrac].
  assert (Hfl : length (drop (length m' - 2) m') = 2%nat)
    by (rewrite length_drop; lia).
  destruct (drop (length m' - 2) m') as [|d1 [|d2 [|? ?]]]; try discriminate.
  simpl in Hfrac. apply andb_prop in Hfrac as [Hd1 Hfrac].
  apply andb_prop in Hfrac as [Hd2 _].
  exists (take (length m' - 2) m'), d1, d2. repeat split; auto.
  intros Hnil. apply (f_equal length) in Hnil. rewrite length_take in Hnil.
  simpl in Hnil. lia.
Qed.

Lemma forallb_rev {A : Type} (f : A -> bool) (l : list A) :
  forallb f (rev l) = forallb f l.
Proof.
  induction l as [|a l IH]; simpl; [reflexivity|].
  rewrite forallb_app, IH. simpl. rewrite andb_true_r. apply andb_comm.
Qed.

Lemma two_decimals_shape (sign int : jsstring) (d1 d2 : N) :
  sign = [] \/ sign = [45%N] ->
  int <> [] -> forallb is_digit int = true ->
  is_digit d1 = true -> is_digit d2 = true ->
  two_decimals (sign ++ int ++ [46%N; d1; d2]) = true.
Proof.
  intros Hsign Hint Hdigits Hd1 Hd2.
  assert (Hrev : rev (int ++ [46%N; d1; d2]) = d2 :: d1 :: 46%N :: rev int).
  { rewrite rev_app_distr. reflexivity. }
  assert (Hrint : rev int <> []).
  { intros Hnil. apply (f_equal (@rev N)) in Hnil.
    rewrite rev_involutive in Hnil. contradiction. }
  assert (Hfirst : exists c rest, int = c :: rest /\ (c =? 45)%N = false).
  { destruct int as [|c rest]; [congruence|]. exists c, rest. split; [reflexivity|].
    simpl in Hdigits. apply andb_prop in Hdigits as [Hc _].
    apply N.eqb_neq. intros ->. discriminate. }
  assert (Hcore :
    match rev (int ++ [46%N; d1; d2]) with
    | d2 :: d1 :: point :: int =>
        is_digit d2 && is_digit d1 && (point =? 46)%N
        && negb (bool_decide (int = [])) && forallb is_digit int
    | _ => false
    end = true).
  { rewrite Hrev, Hd1, Hd2, forallb_rev, Hdigits.
    rewrite bool_decide_eq_false_2 by exact Hrint. reflexivity. }
  unfold two_decimals.
  destruct Hsign as [-> | ->]; cbn [app N.eqb Pos.eqb]; [|exact Hcore].
  destruct Hfirst as (c & rest & -> & Hc). cbn [app]. rewrite Hc. exact Hcore.
Qed.

(** In the fixed-point range [toFixed(2)] writes exactly two decimals. *)
Lemma toFixed_two_decimals (x : number) (s : jsstring) :
  below_1e21 x = true -> toFixed x 2 = Ok s -> two_decimals s = true.
Proof.
  unfold toFixed, below_1e21. cbn [Z.ltb Z.compare orb].
  destruct x as [sg|sg| |sg m e]; try discriminate.
  - intros _ [= <-]. reflexivity.
  - intros Hsmall. apply negb_true_iff in Hsmall. rewrite Hsmall. intros [= <-].
    destruct (fixed_digits_2_shape (round_scaled 2 m e))
      as (int & d1 & d2 & -> & Hint & Hdigits & Hd1 & Hd2).
    apply two_decimals_shape; auto.
    destruct sg; [right|left]; reflexivity.
Qed.

(** Outside that range [toFixed] gives the Number's own string. *)
Lemma toFixed_large (x : number) (s : jsstring) (digits : Z) :
  below_1e21 x = false -> toFixed x digits = Ok s -> s = Number_toString x.
Proof.
  unfold toFixed, below_1e21.
  destruct ((digits <? 0) || (100 <? digits)); [discriminate|].
  destruct x as [sg|sg| |sg m e]; try discriminate.
  - intros _ [= <-]. reflexivity.
  - intros _ [= <-]. reflexivity.
  - intros Hlarge. apply negb_false_iff in Hlarge. rewrite Hlarge.
    intros [= <-]. reflexivity.
Qed.

(** C2, as stated, fails on a large shortfall: with
    [movingAndSetupCost: 1e30] the request is accepted, is not
    affordable, and the field is ["1e+30"], which has no decimals. *)
Lemma shortfall_without_decimals :
  passes_validation huge_moving_cost /\
  exists r,
    validate huge_moving_cost = respond 200 (ResultBody r) /\
    canAfford r = false /\
    additionalMonthlyIncomeNeeded r = JStr (lit "1e+30") /\
    two_decimals (lit "1e+30") = false.
Proof.
  split; [split; vm_compute; reflexivity|].
  eexists. split; [vm_compute; reflexivity|].
  repeat split; vm_compute; reflexivity.
Qed.

(** C2, amended.  For every request that passes validation,
    [additionalMonthlyIncomeNeeded] is the number 0 when [canAfford] is
    true, and otherwise [toFixed(2)] of
    [(totalCostOverTime - totalSavings) / monthsToEvaluate - totalMonthlyIncome],
    which has exactly two decimal digits whenever that value is finite
    and below [10^21] in magnitude, and is the value's own string
    otherwise.  The specification's example with
    [totalMonthlyIncome: 500] gives ["783.33"]. *)
Theorem additional_income_needed :
  (forall b : gmap jsstring JsValue,
     passes_validation b ->
     exists i r,
       convert b = Ok i /\
       validate b = respond 200 (ResultBody r) /\
       (canAfford r = true -> additionalMonthlyIncomeNeeded r = JNum (of_Z 0)) /\
       (canAfford r = false ->
        let value :=
          num_sub
            (num_div (num_sub (totalCostOverTime r) (numTotalSavings i))
               (numMonthsToEvaluate i))
            (numTotalMonthlyIncome i) in
        exists s,
          toFixed value 2 = Ok s /\
          additionalMonthlyIncomeNeeded r = JStr s /\
          (below_1e21 value = true -> two_decimals s = true) /\
          (below_1e21 value = false -> s = Number_toString value))) /\
  (exists r,
     validate spec_example_low_income = respond 200 (ResultBody r) /\
     canAfford r = false /\
     additionalMonthlyIncomeNeeded r = JStr (lit "783.33")).
Proof.
  split.
  - intros b Hpass. accepted Hpass i s Hi Hs Hv.
    exists i. eexists. split; [exact Hi|]. split; [exact Hv|]. cbn.
    split.
    + intros ->. reflexivity.
    + intros ->. exists s. split; [exact Hs|]. split; [reflexivity|]. split.
      * intros Hsmall. exact (toFixed_two_decimals _ _ Hsmall Hs).
      * intros Hlarge. exact (toFixed_large _ _ _ Hlarge Hs).
  - eexists. split; [vm_compute; reflexivity|].
    split; vm_compute; reflexivity.
Qed.

(** C2 at the example with [totalMonthlyIncome: 500]. *)
Lemma additional_income_needed_witness :
  passes_validation spec_example_low_income /\
  exists i r,
    convert spec_example_low_income = Ok i /\
    validate spec_example_low_income = respond 200 (ResultBody r) /\
    (canAfford r = true -> additionalMonthlyIncomeNeeded r = JNum (of_Z 0)) /\
    (canAfford r = false ->
     exists s,
       toFixed
         (num_sub
            (num_div (num_sub (totalCostOverTime r) (numTotalSavings i))
               (numMonthsToEvaluate i))
            (numTotalMonthlyIncome i)) 2 = Ok s /\
       additionalMonthlyIncomeNeeded r = JStr s /\
       (below_1e21
          (num_sub
             (num_div (num_sub (totalCostOverTime r) (numTotalSavings i))
                (numMonthsToEvaluate i))
             (numTotalMonthlyIncome i)) = true -> two_decimals s = true) /\
       (below_1e21
          (num_sub
             (num_div (num_sub (totalCostOverTime r) (numTotalSavings i))
                (numMonthsToEvaluate i))
             (numTotalMonthlyIncome i)) = false ->
        s = Number_toString
              (num_sub
                 (num_div (num_sub (totalCostOverTime r) (numTotalSavings i))
                    (numMonthsToEvaluate i))
                 (numTotalMonthlyIncome i)))).
Proof.
  assert (Hpass : passes_validation spec_example_low_income)
    by (split; vm_compute; reflexivity).
  split; [exact Hpass|].
  exact (proj1 additional_income_needed spec_example_low_income Hpass).
Defined.

(** C3.  For every request that passes validation,
    [affordabilityDuration] is
    [floor((totalSavings + totalMonthlyIncome * monthsToEvaluate) / totalMonthlyCost)];
    the specification's example gives [floor(29000 / 1700) = 17]. *)
Theorem affordabilityDuration_floor :
  (forall b : gmap jsstring JsValue,
     passes_validation b ->
     exists i r,
       convert b = Ok i /\
       validate b = respond 200 (ResultBody r) /\
       totalMonthlyCost r = num_add (numMonthlyLivingCost i) (numRent i) /\
       affordabilityDuration r =
         Math_floor
           (num_div
              (num_add (numTotalSavings i)
                 (num_mul (numTotalMonthlyIncome i) (numMonthsToEvaluate i)))
              (totalMonthlyCost r))) /\
  (exists r,
     validate spec_example = respond 200 (ResultBody r) /\
     num_div
       (num_add (of_Z 5000) (num_mul (of_Z 4000) (of_Z 6)))
       (totalMonthlyCost r) = num_div (of_Z 29000) (of_Z 1700) /\
     affordabilityDuration r = of_Z 17).
Proof.
  split.
  - intros b Hpass. accepted Hpass i s Hi Hs Hv.
    exists i. eexists. split; [exact Hi|]. split; [exact Hv|].
    split; reflexivity.
  - eexists. split; [vm_compute; reflexivity|].
    split; vm_compute; reflexivity.
Qed.

(** C3 at the specification's first example. *)
Lemma affordabilityDuration_floor_witness :
  passes_validation spec_example /\
  exists i r,
    convert spec_example = Ok i /\
    validate spec_example = respond 200 (ResultBody r) /\
    totalMonthlyCost r = num_add (numMonthlyLivingCost i) (numRent i) /\
    affordabilityDuration r =
      Math_floor
        (num_div
           (num_add (numTotalSavings i)
              (num_mul (numTotalMonthlyIncome i) (numMonthsToEvaluate i)))
           (totalMonthlyCost r)).
Proof.
  assert (Hpass : passes_validation spec_example)
    by (split; vm_compute; reflexivity).
  split; [exact Hpass|].
  exact (proj1 affordabilityDuration_floor spec_example Hpass).
Defined.

(** C10.  In every 200 response [additionalMonthlyIncomeNeeded] is the
    number 0 when [canAfford] is true and a string, the result of
    [toFixed(2)], when it is false. *)
Theorem additional_income_type (b : gmap jsstring JsValue) :
  passes_validation b ->
  exists i r,
    convert b = Ok i /\
    validate b = respond 200 (ResultBody r) /\
    match additionalMonthlyIncomeNeeded r with
    | JNum x => canAfford r = true /\ x = of_Z 0
    | JStr s => canAfford r = false /\ toFixed (shortfall i) 2 = Ok s
    | _ => False
    end.
Proof.
  intros Hpass. accepted Hpass i s Hi Hs Hv.
  exists i. eexists. split; [exact Hi|]. split; [exact Hv|]. cbn.
  destruct (num_ge (totalFundsAvailable i) (spec_totalCostOverTime i)); auto.
Qed.

(** C10 at the example with [totalMonthlyIncome: 500]. *)
Lemma additional_income_type_witness :
  passes_validation spec_example_low_income /\
  exists i r,
    convert spec_example_low_income = Ok i /\
    validate spec_example_low_income = respond 200 (ResultBody r) /\
    match additionalMonthlyIncomeNeeded r with
    | JNum x => canAfford r = true /\ x = of_Z 0
    | JStr s => canAfford r = false /\ toFixed (shortfall i) 2 = Ok s
    | _ => False
    end.
Proof.
  assert (Hpass : passes_validation spec_example_low_income)
    by (split; vm_compute; reflexivity).
  split; [exact Hpass|].
  exact (additional_income_type spec_example_low_income Hpass).
Defined.

(** ** Validation *)

Lemma lit_inj (s t : string) : lit s = lit t -> s = t.
Proof.
  unfold lit. intros H.
  rewrite <- (String.string_of_list_ascii_of_string s),
          <- (String.string_of_list_ascii_of_string t).
  f_equal. revert H.
  generalize (String.list_ascii_of_string s) (String.list_ascii_of_string t).
  induction l as [|a l IH]; intros [|a' l']; simpl; try discriminate; [reflexivity|].
  intros [= Ha Hl]. f_equal; [|exact (IH _ Hl)].
  apply Nat2N.inj in Ha.
  rewrite <- (Ascii.ascii_nat_embedding a), <- (Ascii.ascii_nat_embedding a').
  f_equal. exact Ha.
Qed.

Lemma get_insert (b : gmap jsstring JsValue) (key : string) (v : JsValue) :
  get (<[lit key := v]> b) key = v.
Proof. unfold get. rewrite lookup_insert_eq. reflexivity. Qed.

Lemma get_insert_ne (b : gmap jsstring JsValue) (key key' : string) (v : JsValue) :
  key' <> key -> get (<[lit key := v]> b) key' = get b key'.
Proof.
  intros Hne. unfold get. rewrite lookup_insert_ne; [reflexivity|].
  intros Heq. apply Hne. symmetry. exact (lit_inj _ _ Heq).
Qed.

(** Rules that accept their fields do not decide the outcome. *)
Lemma first_failure_skip
    (pre post : list (string * (JsValue -> result bool) * jsstring))
    (b : gmap jsstring JsValue) :
  Forall (fun entry => entry.1.2 (get b entry.1.1) = Ok false) pre ->
  first_failure (pre ++ post) b = first_failure post b.
Proof.
  induction 1 as [|[[key rejects] message] pre Hhead _ IH]; simpl; [reflexivity|].
  simpl in Hhead. rewrite Hhead. exact IH.
Qed.

Lemma range_keys_NoDup : NoDup (map (fun entry => entry.1.1) range_rules).
Proof. simpl. compute_done. Qed.

(** Every rule of the table rejects a falsy value. *)
Lemma range_rule_rejects_falsy (key : string) (rejects : JsValue -> result bool)
    (message : jsstring) (v : JsValue) :
  In (key, rejects, message) range_rules ->
  ToBoolean v = false -> rejects v = Ok true.
Proof.
  intros Hin Hfalsy. simpl in Hin.
  repeat (destruct Hin as [[= <- <- <-] | Hin];
          [unfold missing_or_negative, missing_or_not_positive,
             missing_or_out_of_range; rewrite Hfalsy; reflexivity|]).
  contradiction.
Qed.

(** C4, as stated, fails when an earlier field is rejected: with
    [monthsToEvaluate: 100] and no [movingAndSetupCost] the message is
    the one for the moving costs. *)
Lemma months_error_preempted :
  js_gt (get long_period_no_moving_cost "monthsToEvaluate") (of_Z 60) = Ok true /\
  validate long_period_no_moving_cost =
    respond 400 (ErrorBody (lit "Invalid moving and setup costs provided.")) /\
  lit "Invalid moving and setup costs provided." <>
    lit "Months To Evaluate must be between 1 and 60.".
Proof.
  split; [vm_compute; reflexivity|].
  split; [vm_compute; reflexivity|].
  intros H. apply lit_inj in H. discriminate.
Qed.

(** C4, amended.  When [movingAndSetupCost], [monthlyLivingCost] and
    [rent] pass their own checks and [monthsToEvaluate] is below 1 or
    above 60, the response is the 400 with the months message, whatever
    the fields checked later hold. *)
Theorem months_out_of_range_rejected (b : gmap jsstring JsValue) :
  missing_or_negative (get b "movingAndSetupCost") = Ok false ->
  missing_or_negative (get b "monthlyLivingCost") = Ok false ->
  missing_or_not_positive (get b "rent") = Ok false ->
  js_lt (get b "monthsToEvaluate") (of_Z 1) = Ok true \/
  js_gt (get b "monthsToEvaluate") (of_Z 60) = Ok true ->
  validate b =
    respond 400 (ErrorBody (lit "Months To Evaluate must be between 1 and 60.")).
Proof.
  intros Hmoving Hliving Hrent Hmonths.
  rewrite validate_cases. unfold range_rules. cbn [first_failure].
  rewrite Hmoving, Hliving, Hrent. cbn [mbind result_bind].
  assert (missing_or_out_of_range (get b "monthsToEvaluate") = Ok true) as ->;
    [|reflexivity].
  unfold missing_or_out_of_range.
  destruct (ToBoolean (get b "monthsToEvaluate")); [|reflexivity]. cbn [negb].
  unfold js_lt, js_gt in *.
  destruct (ToNumber (get b "monthsToEvaluate")) as [x|e];
    cbn [mbind result_bind] in *.
  - destruct Hmonths as [Hlow | Hhigh].
    + replace (num_lt x (of_Z 1)) with true by congruence. reflexivity.
    + replace (num_gt x (of_Z 60)) with true by congruence.
      destruct (num_lt x (of_Z 1)); reflexivity.
  - destruct Hmonths; discriminate.
Qed.

(** C4 at the first example with [monthsToEvaluate: 61]. *)
Lemma months_out_of_range_rejected_witness :
  missing_or_negative (get (<[lit "monthsToEvaluate" := int 61]> spec_example)
                         "movingAndSetupCost") = Ok false /\
  missing_or_negative (get (<[lit "monthsToEvaluate" := int 61]> spec_example)
                         "monthlyLivingCost") = Ok false /\
  missing_or_not_positive (get (<[lit "monthsToEvaluate" := int 61]> spec_example)
                             "rent") = Ok false /\
  (js_lt (get (<[lit "monthsToEvaluate" := int 61]> spec_example)
            "monthsToEvaluate") (of_Z 1) = Ok true \/
   js_gt (get (<[lit "monthsToEvaluate" := int 61]> spec_example)
            "monthsToEvaluate") (of_Z 60) = Ok true) /\
  validate (<[lit "monthsToEvaluate" := int 61]> spec_example) =
    respond 400 (ErrorBody (lit "Months To Evaluate must be between 1 and 60.")).
Proof.
  assert (H1 : missing_or_negative
                 (get (<[lit "monthsToEvaluate" := int 61]> spec_example)
                    "movingAndSetupCost") = Ok false)
    by (vm_compute; reflexivity).
  assert (H2 : missing_or_negative
                 (get (<[lit "monthsToEvaluate" := int 61]> spec_example)
                    "monthlyLivingCost") = Ok false)
    by (vm_compute; reflexivity).
  assert (H3 : missing_or_not_positive
                 (get (<[lit "monthsToEvaluate" := int 61]> spec_example)
                    "rent") = Ok false)
    by (vm_compute; reflexivity).
  assert (H4 : js_lt (get (<[lit "monthsToEvaluate" := int 61]> spec_example)
                        "monthsToEvaluate") (of_Z 1) = Ok true \/
               js_gt (get (<[lit "monthsToEvaluate" := int 61]> spec_example)
                        "monthsToEvaluate") (of_Z 60) = Ok true)
    by (right; vm_compute; reflexivity).
  split; [exact H1|]. split; [exact H2|]. split; [exact H3|]. split; [exact H4|].
  exact (months_out_of_range_rejected _ H1 H2 H3 H4).
Defined.

Lemma NoDup_map_In {A B : Type} (f : A -> B) (l : list A) (x y : A) :
  NoDup (map f l) -> In x l -> In y l -> f x = f y -> x = y.
Proof.
  induction l as [|a l IH]; simpl; intros Hnodup Hx Hy Hf; [contradiction|].
  apply NoDup_cons in Hnodup as [Hfresh Hnodup].
  destruct Hx as [-> | Hx], Hy as [-> | Hy]; auto.
  - exfalso. apply Hfresh. rewrite Hf. apply list_elem_of_In, in_map, Hy.
  - exfalso. apply Hfresh. rewrite <- Hf. apply list_elem_of_In, in_map, Hx.
Qed.

Lemma range_messages_NoDup : NoDup (map snd range_rules).
Proof. simpl. compute_done. Qed.

(** The messages of the table tell the fields apart. *)
Lemma range_message_names_field (key key' : string)
    (rejects rejects' : JsValue -> result bool) (message : jsstring) :
  In (key, rejects, message) range_rules ->
  In (key', rejects', message) range_rules -> key' = key.
Proof.
  intros Hin Hin'.
  pose proof (NoDup_map_In snd range_rules _ _ range_messages_NoDup Hin Hin' eq_refl)
    as Heq.
  congruence.
Qed.

(** C5.  For every field of the table, a request that gives it a falsy
    value (0, [null], or nothing) while every other field passes its own
    check is answered with the 400 that carries the field's message, a
    message no other field has. *)
Theorem falsy_field_rejected (b : gmap jsstring JsValue) (key : string)
    (rejects : JsValue -> result bool) (message : jsstring) (v : JsValue) :
  In (key, rejects, message) range_rules ->
  ToBoolean v = false ->
  (forall key' rejects' message',
     In (key', rejects', message') range_rules -> key' <> key ->
     rejects' (get b key') = Ok false) ->
  validate (<[lit key := v]> b) = respond 400 (ErrorBody message) /\
  (forall key' rejects',
     In (key', rejects', message) range_rules -> key' = key).
Proof.
  intros Hin Hfalsy Hothers.
  split; [|intros key' rejects'; exact (range_message_names_field _ _ _ _ _ Hin)].
  destruct (in_split _ _ Hin) as (pre & post & Hsplit).
  pose proof range_keys_NoDup as Hnodup. rewrite Hsplit, map_app in Hnodup.
  apply NoDup_app in Hnodup as (_ & Hdisjoint & _).
  rewrite validate_cases, Hsplit, first_failure_skip.
  - cbn [first_failure]. rewrite get_insert.
    rewrite (range_rule_rejects_falsy key rejects message v Hin Hfalsy).
    reflexivity.
  - apply Forall_forall. intros [[key' rejects'] message'] Hpre. simpl.
    assert (key' <> key) as Hne.
    { intros ->. apply (Hdisjoint key).
      - apply list_elem_of_In, in_map_iff. exists (key, rejects', message').
        split; [reflexivity|]. apply list_elem_of_In. exact Hpre.
      - simpl. left. }
    rewrite get_insert_ne by exact Hne.
    apply (Hothers key' rejects' message'); [|exact Hne].
    rewrite Hsplit. apply in_or_app. left. apply list_elem_of_In. exact Hpre.
Qed.

(** C5 at the first example with [rent: 0]. *)
Lemma falsy_field_rejected_witness :
  In ("rent"%string, missing_or_not_positive, lit "Invalid rent provided.")
    range_rules /\
  ToBoolean (JNum (of_Z 0)) = false /\
  (forall key' rejects' message',
     In (key', rejects', message') range_rules -> key' <> "rent"%string ->
     rejects' (get spec_example key') = Ok false) /\
  validate (<[lit "rent" := JNum (of_Z 0)]> spec_example) =
    respond 400 (ErrorBody (lit "Invalid rent provided.")) /\
  (forall key' rejects',
     In (key', rejects', lit "Invalid rent provided.") range_rules ->
     key' = "rent"%string).
Proof.
  assert (Hin : In ("rent"%string, missing_or_not_positive,
                    lit "Invalid rent provided.") range_rules)
    by (simpl; auto).
  assert (Hothers : forall key' rejects' message',
             In (key', rejects', message') range_rules -> key' <> "rent"%string ->
             rejects' (get spec_example key') = Ok false).
  { intros key' rejects' message' Hin' Hne. simpl in Hin'.
    repeat (destruct Hin' as [[= <- <- <-] | Hin'];
            [first [vm_compute; reflexivity | contradiction]|]).
    contradiction. }
  split; [exact Hin|]. split; [reflexivity|]. split; [exact Hothers|].
  exact (falsy_field_rejected spec_example _ _ _ (JNum (of_Z 0)) Hin eq_refl Hothers).
Defined.

(** C6, as stated, fails for the numeric check: that pass does not
    follow the specified field order.  With ["abc"] for both
    [securityDeposit] and [monthsToEvaluate] every presence/range check
    passes and neither field is numeric; [monthsToEvaluate] comes first
    in the specified order, yet the message is the one for the deposit. *)
Lemma numeric_check_order :
  first_failure range_rules words_for_deposit_and_months = Ok None /\
  isNumeric (get words_for_deposit_and_months "monthsToEvaluate") = Ok false /\
  isNumeric (get words_for_deposit_and_months "securityDeposit") = Ok false /\
  first_not_numeric
    (map (fun key => (lit key, get words_for_deposit_and_months key))
       specified_order) = Ok (Some (lit "monthsToEvaluate")) /\
  validate words_for_deposit_and_months =
    respond 400 (ErrorBody (lit "Security Deposit must be a valid number.")).
Proof. repeat split; vm_compute; reflexivity. Qed.

(** C6, amended.  An invalid request is answered with one message,
    first failure wins.  The presence/range rules run first, in the
    order movingAndSetupCost, monthlyLivingCost, rent, monthsToEvaluate,
    securityDeposit, totalMonthlyIncome, totalSavings, and the first
    that rejects its field gives its message.  Only when all of these
    pass are the fields tested for being numbers, in the order of the
    [parameters] object (monthsToEvaluate last), and the first that is
    not gives ["<label> must be a valid number."].  When no check fails
    the response is a 200.  A check that throws ends the handler. *)
Theorem first_failure_wins :
  (forall b : gmap jsstring JsValue,
     match first_failure range_rules b with
     | Throw e => validate b = Throw e
     | Ok (Some message) => validate b = respond 400 (ErrorBody message)
     | Ok None =>
         match first_not_numeric (parameters b) with
         | Throw e => validate b = Throw e
         | Ok (Some key) =>
             validate b =
             respond 400 (ErrorBody (label_of key ++ lit " must be a valid number."))
         | Ok None => exists r, validate b = respond 200 (ResultBody r)
         end
     end) /\
  map (fun entry => entry.1.1) range_rules = specified_order /\
  map fst (parameters ∅) =
    map lit ["movingAndSetupCost"; "monthlyLivingCost"; "rent"; "securityDeposit";
             "totalMonthlyIncome"; "totalSavings"; "monthsToEvaluate"]%string /\
  map (fun entry => label_of entry.1) (parameters ∅) =
    [lit "Moving & Setup Costs"; lit "Monthly Living Costs"; lit "Monthly Rent";
     lit "Security Deposit"; lit "Total Monthly Income"; lit "Total Savings";
     lit "Months to Evaluate"].
Proof.
  split; [|repeat split; vm_compute; reflexivity].
  intros b. rewrite validate_cases.
  destruct (first_failure range_rules b) as [[message|]|e] eqn:Hrange;
    try reflexivity.
  destruct (first_not_numeric (parameters b)) as [[key|]|e] eqn:Hnumeric;
    try reflexivity.
  destruct (validate_accepted b (conj Hrange Hnumeric)) as (i & r & Hi & Hr & Hv).
  exists r. rewrite <- Hv, validate_cases, Hrange, Hnumeric. reflexivity.
Qed.

(** C9, at the request with [monthlyLivingCost: "0x1"] and
    [rent: "0x1"].  Both strings compare as 1 in the range checks and
    are finite for [isFinite], so the request passes validation; but
    [parseFloat] reads the prefix ["0"], so [totalMonthlyCost] is 0 and
    [affordabilityDuration] is [floor(29000 / 0)], infinity. *)
Theorem hex_costs_divide_by_zero :
  js_le (get hex_costs "rent") (of_Z 0) = Ok false /\
  parseFloat (get hex_costs "rent") = Ok (S754_zero false) /\
  passes_validation hex_costs /\
  exists r,
    validate hex_costs = respond 200 (ResultBody r) /\
    totalMonthlyCost r = S754_zero false /\
    affordabilityDuration r = Infinity.
Proof.
  split; [vm_compute; reflexivity|].
  split; [vm_compute; reflexivity|].
  split; [split; vm_compute; reflexivity|].
  eexists. split; [vm_compute; reflexivity|].
  split; vm_compute; reflexivity.
Qed.

(** The [catch] clause of /validate is never entered: no response has
    status 500. *)
Lemma validate_never_500 (b : gmap jsstring JsValue) (resp : Response) :
  validate b = Ok resp -> status resp <> 500.
Proof.
  intros H. destruct (validate_status b resp H) as [[-> _] | [-> _]]; discriminate.
Qed.

(** ** Feedback *)

(** The chain of /feedback has no validator, so it records no error and
    its value is the trimmed, escaped text. *)
Lemma feedback_chain_runs (field text : jsstring) :
  run_chain feedback_chain field text = (escape (trim text), []).
Proof. reflexivity. Qed.

(** With the table in memory every text is stored, as its sanitized
    form, under the next identifier. *)
Lemma feedback_stores_sanitized (table : list FeedbackRecord) (text : jsstring) :
  let row := {| record_id := Z.of_nat (length table) + 1;
                content := escape (trim text) |} in
  response (feedback table text) =
    {| status := 201; body := RecordBody (Some row) |} /\
  database (feedback table text) = table ++ [row].
Proof. split; reflexivity. Qed.

(** C7, at the text of three spaces.  Trimming leaves the empty string;
    the handler answers 201 and the table holds a row with empty
    content. *)
Theorem blank_feedback_is_stored :
  trim (lit "   ") = [] /\
  response (feedback ([] : list FeedbackRecord) (lit "   ")) =
    {| status := 201;
       body := RecordBody (Some {| record_id := 1; content := [] |}) |} /\
  database (feedback ([] : list FeedbackRecord) (lit "   ")) =
    [{| record_id := 1; content := [] |}].
Proof. repeat split. Qed.

Section AnyPool.
Context `{Pool Db}.

(** No text is answered with status 400, whatever the pool does. *)
Lemma feedback_never_400 (db : Db) (text : jsstring) :
  status (response (feedback db text)) <> 400.
Proof.
  unfold feedback. rewrite feedback_chain_runs.
  destruct (query db insert_feedback [escape (trim text)]) as [[rows|detail] db'];
    discriminate.
Qed.

(** C8.  When the insert fails, the response is the 500 with body
    [{ error: "Internal server error" }], whatever the failure was; the
    cause goes to the console only. *)
Theorem storage_failure_is_opaque (db db' : Db) (text detail : jsstring) :
  query db insert_feedback [escape (trim text)] = (QueryError detail, db') ->
  response (feedback db text) =
    {| status := 500; body := ErrorBody (lit "Internal server error") |} /\
  console (feedback db text) =
    [console_log (lit "Received feedback:") (LogText (escape (trim text)));
     console_error (lit "Error saving feedback:") (LogFailure detail)].
Proof.
  intros Hquery. unfold feedback. rewrite feedback_chain_runs, Hquery.
  split; reflexivity.
Qed.
End AnyPool.

(** C8 at a database that cannot be reached. *)
Lemma storage_failure_is_opaque_witness :
  query unreachable insert_feedback [escape (trim (lit "  Great app!  "))] =
    (QueryError (lit "connect ECONNREFUSED: " ++ insert_feedback), unreachable) /\
  response (feedback unreachable (lit "  Great app!  ")) =
    {| status := 500; body := ErrorBody (lit "Internal server error") |} /\
  console (feedback unreachable (lit "  Great app!  ")) =
    [console_log (lit "Received feedback:")
       (LogText (escape (trim (lit "  Great app!  "))));
     console_error (lit "Error saving feedback:")
       (LogFailure (lit "connect ECONNREFUSED: " ++ insert_feedback))].
Proof.
  split; [reflexivity|].
  exact (storage_failure_is_opaque unreachable unreachable (lit "  Great app!  ")
           (lit "connect ECONNREFUSED: " ++ insert_feedback) eq_refl).
Defined.

(** * More of the later /validate *)

(** X1.  The handler reads seven properties of the body and nothing
    else: two bodies that agree on them get the same outcome. *)
Theorem validate_reads_seven_fields (b b' : gmap jsstring JsValue) :
  (forall key, In key request_fields -> get b key = get b' key) ->
  validate b = validate b'.
Proof.
  intros Hsame. unfold validate.
  rewrite (Hsame "movingAndSetupCost"%string), (Hsame "monthlyLivingCost"%string),
    (Hsame "rent"%string), (Hsame "securityDeposit"%string),
    (Hsame "totalMonthlyIncome"%string), (Hsame "totalSavings"%string),
    (Hsame "monthsToEvaluate"%string) by (simpl; auto 10).
  reflexivity.
Qed.

(** X1 at the first example and the same body with two more properties. *)
Lemma validate_reads_seven_fields_witness :
  (forall key, In key request_fields ->
     get spec_example key =
     get (<[lit "note" := JStr (lit "x")]> (<[lit "rentt" := JNull]> spec_example))
       key) /\
  validate spec_example =
  validate (<[lit "note" := JStr (lit "x")]> (<[lit "rentt" := JNull]> spec_example)).
Proof.
  assert (Hsame : forall key, In key request_fields ->
            get spec_example key =
            get (<[lit "note" := JStr (lit "x")]>
                   (<[lit "rentt" := JNull]> spec_example)) key).
  { intros key Hin. simpl in Hin.
    repeat (destruct Hin as [<- | Hin]; [vm_compute; reflexivity|]).
    contradiction. }
  split; [exact Hsame|].
  exact (validate_reads_seven_fields _ _ Hsame).
Defined.

Lemma primitive_ToString (v : JsValue) :
  primitive v = true -> exists s, ToString v = Ok s.
Proof. destruct v; try discriminate; simpl; eauto. Qed.

Lemma primitive_ToNumber (v : JsValue) :
  primitive v = true -> exists x, ToNumber v = Ok x.
Proof. destruct v; try discriminate; simpl; eauto. Qed.

Lemma primitive_rule (key : string) (rejects : JsValue -> result bool)
    (message : jsstring) (v : JsValue) :
  In (key, rejects, message) range_rules ->
  primitive v = true -> exists bad, rejects v = Ok bad.
Proof.
  intros Hin Hv. destruct (primitive_ToNumber v Hv) as [x Hx]. simpl in Hin.
  repeat (destruct Hin as [[= <- <- <-] | Hin];
          [unfold missing_or_negative, missing_or_not_positive,
             missing_or_out_of_range, js_lt, js_le, js_gt;
           rewrite Hx; cbn [mbind result_bind];
           destruct (negb (ToBoolean v)); [eauto|];
           try destruct (num_lt x (of_Z 1)); eauto|]).
  contradiction.
Qed.

Lemma primitive_isNumeric (v : JsValue) :
  primitive v = true -> exists numeric, isNumeric v = Ok numeric.
Proof.
  intros Hv. destruct (primitive_ToString v Hv) as [s Hs].
  destruct (primitive_ToNumber v Hv) as [x Hx].
  unfold isNumeric, parseFloat, isFinite. rewrite Hs, Hx. cbn [mbind result_bind].
  destruct (negb (isNaN (parseFloat_string s))); eauto.
Qed.

(** A table of rules that all return passes without an exception. *)
Lemma first_failure_returns
    (rules : list (string * (JsValue -> result bool) * jsstring))
    (b : gmap jsstring JsValue) :
  Forall (fun entry => exists bad, entry.1.2 (get b entry.1.1) = Ok bad) rules ->
  exists failure, first_failure rules b = Ok failure.
Proof.
  induction 1 as [|[[key rejects] message] rest [bad Hbad] _ [failure IH]];
    simpl; [eauto|].
  simpl in Hbad. rewrite Hbad. cbn [mbind result_bind].
  destruct bad; eauto.
Qed.

Lemma first_not_numeric_returns (entries : list (jsstring * JsValue)) :
  Forall (fun entry => exists numeric, isNumeric entry.2 = Ok numeric) entries ->
  exists bad, first_not_numeric entries = Ok bad.
Proof.
  induction 1 as [|[key value] rest [numeric Hvalue] _ [bad IH]]; simpl; [eauto|].
  simpl in Hvalue. rewrite Hvalue. cbn [mbind result_bind].
  destruct numeric; eauto.
Qed.

(** X2.  When the seven fields are primitive values (absent, [null],
    booleans, numbers, strings) no check throws: the request is
    answered, with status 200 or 400. *)
Theorem validate_answers_primitives (b : gmap jsstring JsValue) :
  (forall key, In key request_fields -> primitive (get b key) = true) ->
  exists resp, validate b = Ok resp /\ (status resp = 200 \/ status resp = 400).
Proof.
  intros Hprim.
  assert (Hrange : exists failure, first_failure range_rules b = Ok failure).
  { apply first_failure_returns, Forall_forall.
    intros [[key rejects] message] Hin. apply list_elem_of_In in Hin. simpl.
    apply (primitive_rule key rejects message); [exact Hin|].
    apply Hprim. simpl in Hin.
    repeat (destruct Hin as [[= <- <- <-] | Hin]; [simpl; auto 10|]).
    contradiction. }
  assert (Hnumeric : exists bad, first_not_numeric (parameters b) = Ok bad).
  { apply first_not_numeric_returns. unfold parameters.
    repeat (apply Forall_cons; split;
            [apply primitive_isNumeric, Hprim; simpl; auto 10|]).
    constructor. }
  destruct Hrange as [failure Hrange]. destruct Hnumeric as [bad Hnumeric].
  destruct failure as [message|].
  { eexists. rewrite validate_cases, Hrange. split; [reflexivity|]. right. reflexivity. }
  destruct bad as [key|].
  { eexists. rewrite validate_cases, Hrange, Hnumeric.
    split; [reflexivity|]. right. reflexivity. }
  destruct (validate_accepted b (conj Hrange Hnumeric)) as (i & r & _ & _ & Hv).
  eexists. split; [exact Hv|]. left. reflexivity.
Qed.

(** X2 at the first example. *)
Lemma validate_answers_primitives_witness :
  (forall key, In key request_fields -> primitive (get spec_example key) = true) /\
  exists resp,
    validate spec_example = Ok resp /\ (status resp = 200 \/ status resp = 400).
Proof.
  assert (Hprim : forall key, In key request_fields ->
            primitive (get spec_example key) = true).
  { intros key Hin. simpl in Hin.
    repeat (destruct Hin as [<- | Hin]; [vm_compute; reflexivity|]).
    contradiction. }
  split; [exact Hprim|].
  exact (validate_answers_primitives spec_example Hprim).
Defined.

(** X3.  A response of the handler has status 200 exactly when the
    request passes every check, and then carries the result; otherwise
    it has status 400 and carries one message.  The 500 of the [catch]
    clause is never sent. *)
Theorem validate_200_or_400 (b : gmap jsstring JsValue) (resp : Response) :
  validate b = Ok resp ->
  (passes_validation b /\ status resp = 200 /\ exists r, body resp = ResultBody r) \/
  (~ passes_validation b /\ status resp = 400 /\
   exists message, body resp = ErrorBody message).
Proof.
  rewrite validate_cases. unfold passes_validation.
  destruct (first_failure range_rules b) as [[message|]|e]; try discriminate.
  { intros [= <-]. right. split; [intros [? _]; discriminate|]. simpl. eauto. }
  destruct (first_not_numeric (parameters b)) as [[key|]|e] eqn:Hn; try discriminate.
  { intros [= <-]. right. split; [intros [_ ?]; discriminate|]. simpl. eauto. }
  destruct (numeric_convert b Hn) as [i ->]. cbn [mbind result_bind].
  destruct (calculate_for_Ok i) as (s & _ & ->).
  intros [= <-]. left. simpl. eauto.
Qed.

(** X3 at the first example with [rent: 0]. *)
Lemma validate_200_or_400_witness :
  validate (<[lit "rent" := int 0]> spec_example) =
    Ok {| status := 400; body := ErrorBody (lit "Invalid rent provided.") |} /\
  ((passes_validation (<[lit "rent" := int 0]> spec_example) /\
    400 = 200 /\ exists r, ErrorBody (lit "Invalid rent provided.") = ResultBody r) \/
   (~ passes_validation (<[lit "rent" := int 0]> spec_example) /\
    400 = 400 /\
    exists message, ErrorBody (lit "Invalid rent provided.") = ErrorBody message)).
Proof.
  assert (Hv : validate (<[lit "rent" := int 0]> spec_example) =
               Ok {| status := 400;
                     body := ErrorBody (lit "Invalid rent provided.") |})
    by (vm_compute; reflexivity).
  split; [exact Hv|].
  exact (validate_200_or_400 _ _ Hv).
Defined.

(** ** [isNumeric] on Numbers *)

Lemma shr_1_nonneg (mrs : shr_record) :
  0 <= shr_m mrs -> 0 <= shr_m (shr_1 mrs).
Proof.
  destruct mrs as [m r s]. destruct m as [|[p|p|]|[p|p|]]; simpl; lia.
Qed.

Lemma iter_shr_1_nonneg (p : positive) (mrs : shr_record) :
  0 <= shr_m mrs -> 0 <= shr_m (SpecFloat.iter_pos shr_1 p mrs).
Proof.
  revert mrs. induction p as [p IH|p IH|]; intros mrs Hm; simpl;
    auto using shr_1_nonneg.
Qed.

Lemma shr_fexp_nonneg (m e : Z) (l : location) :
  0 <= m -> 0 <= shr_m (shr_fexp prec emax m e l).1.
Proof.
  intros Hm. unfold shr_fexp, shr.
  assert (0 <= shr_m (shr_record_of_loc m l)) by (destruct l as [|[]]; exact Hm).
  destruct (fexp prec emax (Zdigits2 m + e) - e); simpl; auto using iter_shr_1_nonneg.
Qed.

Lemma round_nearest_even_nonneg (m : Z) (l : location) :
  0 <= m -> 0 <= round_nearest_even m l.
Proof.
  intros Hm. destruct l as [|[]]; simpl; try lia. destruct (Z.even m); lia.
Qed.

(** Rounding a non-negative mantissa gives a zero, a finite number or an
    infinity. *)
Lemma binary_round_aux_not_nan (s : bool) (m e : Z) (l : location) :
  0 <= m -> isNaN (binary_round_aux prec emax s m e l) = false.
Proof.
  intros Hm. unfold binary_round_aux.
  pose proof (shr_fexp_nonneg m e l Hm) as H1.
  destruct (shr_fexp prec emax m e l) as [mrs' e']. simpl in H1.
  pose proof (shr_fexp_nonneg _ e' loc_Exact
                (round_nearest_even_nonneg _ (loc_of_shr_record mrs') H1)) as H2.
  destruct (shr_fexp prec emax
              (round_nearest_even (shr_m mrs') (loc_of_shr_record mrs')) e' loc_Exact)
    as [mrs'' e'']. simpl in H2.
  destruct (shr_m mrs'') as [|p|p]; [reflexivity| |lia].
  destruct (e'' <=? emax - prec); reflexivity.
Qed.

Lemma of_decimal_not_nan (neg : bool) (m e : Z) :
  0 <= m -> isNaN (of_decimal neg m e) = false.
Proof.
  intros Hm. destruct m as [|p|p]; [reflexivity| |lia].
  unfold of_decimal. destruct (0 <=? e) eqn:He.
  - unfold binary_round.
    destruct (shl_align _ _ _) as [mz ez]. apply binary_round_aux_not_nan. lia.
  - apply Z.leb_gt in He. unfold SFdiv_core_binary.
    set (e' := Z.min _ _). set (m' := match 0 - 0 - e' with
                                      | 0 => Z.pos p
                                      | Z.pos _ => Z.shiftl (Z.pos p) (0 - 0 - e')
                                      | Z.neg _ => 0
                                      end).
    assert (Hm' : 0 <= m').
    { subst m'. destruct (0 - 0 - e'); try lia. apply Z.shiftl_nonneg. lia. }
    assert (Hq : 0 <= m' / 10 ^ (- e)).
    { apply Z.div_pos; [exact Hm'|]. apply Z.pow_pos_nonneg; lia. }
    unfold Z.div in Hq.
    destruct (Z.div_eucl m' (10 ^ (- e))) as [q r].
    apply binary_round_aux_not_nan. exact Hq.
Qed.

Lemma is_digit_value (c : N) : is_digit c = true -> 0 <= digit_value c.
Proof.
  unfold is_digit, digit_value. intros H. apply andb_prop in H as [H _].
  apply N.leb_le in H. lia.
Qed.

Lemma read_digits_bounds (acc count : Z) (s : jsstring) :
  0 <= acc ->
  0 <= (read_digits acc count s).1.1 /\ count <= (read_digits acc count s).1.2.
Proof.
  revert acc count. induction s as [|c s IH]; intros acc count Hacc; simpl;
    [split; [exact Hacc | lia]|].
  destruct (is_digit c) eqn:Hc; [|simpl; split; [exact Hacc | lia]].
  pose proof (is_digit_value c Hc).
  destruct (IH (10 * acc + digit_value c) (count + 1) ltac:(lia)) as [Hv Hn].
  split; [exact Hv | lia].
Qed.

(** A string that begins with a digit reads as a number that is not NaN. *)
Lemma read_unsigned_decimal_digit (neg : bool) (d : N) (rest : jsstring) :
  is_digit d = true ->
  exists x r, read_unsigned_decimal neg (d :: rest) = Some (x, r) /\ isNaN x = false.
Proof.
  intros Hd. unfold read_unsigned_decimal.
  assert (starts_with (lit "Infinity") (d :: rest) = None) as ->.
  { change (lit "Infinity") with (73%N :: lit "nfinity"). cbn [starts_with].
    destruct (73 =? d)%N eqn:Heq; [|reflexivity].
    apply N.eqb_eq in Heq. subst d. discriminate. }
  pose proof (read_digits_bounds 0 0 (d :: rest) ltac:(lia)) as [Hint Hcount].
  assert (Hone : 1 <= (read_digits 0 0 (d :: rest)).1.2).
  { cbn [read_digits]. rewrite Hd.
    apply (read_digits_bounds (10 * 0 + digit_value d) (0 + 1) rest).
    pose proof (is_digit_value d Hd). lia. }
  destruct (read_digits 0 0 (d :: rest)) as [[int_part int_count] rest1].
  simpl in Hint, Hone.
  assert ((int_count =? 0) = false) as Hnz by (apply Z.eqb_neq; lia).
  assert (Hend : forall mant frac_count rest',
             0 <= mant ->
             exists x r,
               (let '(ex, rest'') := read_exponent rest' in
                Some (of_decimal neg mant (ex - frac_count), rest'')) = Some (x, r) /\
               isNaN x = false).
  { intros mant frac_count rest' Hmant.
    destruct (read_exponent rest') as [ex rest''].
    eexists _, _. split; [reflexivity|]. apply of_decimal_not_nan, Hmant. }
  destruct rest1 as [|c r]; [rewrite Hnz; cbn [andb]; apply Hend, Hint|].
  destruct (c =? 46)%N; [|rewrite Hnz; cbn [andb]; apply Hend, Hint].
  pose proof (read_digits_bounds int_part 0 r Hint) as [Hfrac _].
  destruct (read_digits int_part 0 r) as [[m count] r']. simpl in Hfrac.
  rewrite Hnz. cbn [andb]. apply Hend, Hfrac.
Qed.

Lemma digit_not_whitespace (c : N) : is_digit c = true -> is_whitespace c = false.
Proof.
  unfold is_digit. intros H. apply andb_prop in H as [Hlo Hhi].
  apply N.leb_le in Hlo, Hhi.
  assert (In c [48; 49; 50; 51; 52; 53; 54; 55; 56; 57]%N) as Hin.
  { simpl. lia. }
  simpl in Hin.
  repeat (destruct Hin as [<- | Hin]; [reflexivity|]). contradiction.
Qed.

(** The string of a finite non-zero Number begins with a digit after
    its sign. *)
Lemma positive_toString_head (m : positive) (e : Z) :
  exists d rest, positive_toString m e = d :: rest /\ is_digit d = true.
Proof.
  unfold positive_toString. destruct (shortest_decimal m e) as [[n k] e'].
  pose proof (digits_of_nonempty n) as Hlen. pose proof (digits_of_digits n) as Hds.
  destruct (digits_of n) as [|d ds]; [simpl in Hlen; lia|].
  simpl in Hds. apply andb_prop in Hds as [Hd _].
  destruct ((k <=? e') && (e' <=? 21)); [eauto|].
  destruct ((0 <? e') && (e' <=? 21)) eqn:Hpoint.
  { apply andb_prop in Hpoint as [Hpos _]. apply Z.ltb_lt in Hpos.
    destruct (Z.to_nat e') as [|j] eqn:Hj; [lia|]. cbn [take app]. eauto. }
  destruct ((-6 <? e') && (e' <=? 0)).
  { change (lit "0.") with [48%N; 46%N]. cbn [app]. eauto. }
  destruct (k =? 1); cbn [take app]; eauto.
Qed.

(** X4.  On a Number [isNumeric] answers whether it is finite: NaN and
    the infinities are refused, every other Number is accepted. *)
Theorem isNumeric_number (x : number) : isNumeric (JNum x) = Ok (num_isFinite x).
Proof.
  destruct x as [s|s| |s m e];
    [destruct s; vm_compute; reflexivity | destruct s; vm_compute; reflexivity
    | vm_compute; reflexivity |].
  unfold isNumeric, parseFloat, isFinite, ToNumber, ToPrimitive.
  cbn [ToString mbind result_bind num_isFinite Number_toString].
  destruct (positive_toString_head m e) as (d & rest & -> & Hd).
  destruct (read_unsigned_decimal_digit s d rest Hd) as (x & r & Hread & Hx).
  destruct (read_unsigned_decimal_digit false d rest Hd) as (x' & r' & Hread' & Hx').
  assert (isNaN (parseFloat_string ((if s then lit "-" else []) ++ d :: rest)) = false)
    as ->; [|reflexivity].
  unfold parseFloat_string. destruct s.
  - change (lit "-" ++ d :: rest) with (45%N :: d :: rest).
    cbn [trim_start]. change (is_whitespace 45) with false. cbn [read_decimal N.eqb Pos.eqb].
    rewrite Hread. exact Hx.
  - cbn [app trim_start]. rewrite (digit_not_whitespace d Hd).
    cbn [read_decimal].
    assert ((d =? 45)%N = false) as ->.
    { apply N.eqb_neq. intros ->. discriminate. }
    assert ((d =? 43)%N = false) as ->.
    { apply N.eqb_neq. intros ->. discriminate. }
    rewrite Hread'. exact Hx'.
Qed.

(** ** Strings that are decimal numerals *)

Lemma whitespace_differs (b c : N) :
  is_whitespace b = true -> is_whitespace c = false -> (c =? b)%N = false.
Proof. intros Hb Hc. apply N.eqb_neq. intros ->. congruence. Qed.

Lemma whitespace_is_not (b c : N) :
  is_whitespace b = true -> is_whitespace c = false -> (b =? c)%N = false.
Proof. intros Hb Hc. apply N.eqb_neq. intros ->. congruence. Qed.

Lemma whitespace_not_digit (b : N) : is_whitespace b = true -> is_digit b = false.
Proof.
  intros Hb. destruct (is_digit b) eqn:Hd; [|reflexivity].
  apply digit_not_whitespace in Hd. congruence.
Qed.

(** The readers take a prefix: white space after the text stays unread. *)
Lemma read_digits_app (acc count : Z) (t w : jsstring) :
  Forall (fun c => is_whitespace c = true) w ->
  read_digits acc count (t ++ w) =
  let '(v, n, r) := read_digits acc count t in (v, n, r ++ w).
Proof.
  intros Hw. revert acc count. induction t as [|c t IH]; intros acc count.
  - cbn [app read_digits]. destruct Hw as [|b w Hb _]; [reflexivity|].
    cbn [read_digits]. rewrite (whitespace_not_digit b Hb). reflexivity.
  - cbn [app read_digits]. destruct (is_digit c); [apply IH | reflexivity].
Qed.

Lemma starts_with_app (p t w : jsstring) :
  Forall (fun c => is_whitespace c = true) w ->
  Forall (fun a => is_whitespace a = false) p ->
  starts_with p (t ++ w) = (fun r => r ++ w) <$> starts_with p t.
Proof.
  intros Hw Hp. revert t. induction Hp as [|a p Ha _ IH]; intros t; [reflexivity|].
  destruct t as [|c t].
  - cbn [app starts_with]. destruct Hw as [|b w Hb _]; [reflexivity|].
    cbn [starts_with]. rewrite (whitespace_differs b a Hb Ha). reflexivity.
  - cbn [app starts_with]. destruct (a =? c)%N; [apply IH | reflexivity].
Qed.

Lemma read_exponent_app (t w : jsstring) :
  Forall (fun c => is_whitespace c = true) w ->
  read_exponent (t ++ w) = let '(v, r) := read_exponent t in (v, r ++ w).
Proof.
  intros Hw. destruct t as [|c rest].
  - cbn [app]. destruct Hw as [|b w Hb _]; [reflexivity|].
    cbn [read_exponent].
    rewrite (whitespace_is_not b 101 Hb eq_refl), (whitespace_is_not b 69 Hb eq_refl).
    reflexivity.
  - cbn [app read_exponent]. destruct ((c =? 101) || (c =? 69))%N; [|reflexivity].
    assert (Hsign :
      (match rest ++ w with
       | d :: r => if (d =? 45)%N then (true, r)
                   else if (d =? 43)%N then (false, r) else (false, rest ++ w)
       | [] => (false, rest ++ w)
       end) =
      (let '(neg, rest') :=
         match rest with
         | d :: r => if (d =? 45)%N then (true, r)
                     else if (d =? 43)%N then (false, r) else (false, rest)
         | [] => (false, rest)
         end in (neg, rest' ++ w))).
    { destruct rest as [|d r].
      - cbn [app]. destruct Hw as [|b w Hb _]; [reflexivity|].
        rewrite (whitespace_is_not b 45 Hb eq_refl),
          (whitespace_is_not b 43 Hb eq_refl). reflexivity.
      - cbn [app]. destruct (d =? 45)%N; [reflexivity|].
        destruct (d =? 43)%N; reflexivity. }
    rewrite Hsign.
    destruct (match rest with
              | d :: r => if (d =? 45)%N then (true, r)
                          else if (d =? 43)%N then (false, r) else (false, rest)
              | [] => (false, rest)
              end) as [neg rest'].
    rewrite (read_digits_app 0 0 rest' w Hw).
    destruct (read_digits 0 0 rest') as [[v count] rest''].
    destruct (count =? 0); reflexivity.
Qed.

Lemma read_exponent_tail (neg : bool) (int_count mant frac_count : Z)
    (r w : jsstring) :
  Forall (fun c => is_whitespace c = true) w ->
  (if (int_count =? 0) && (frac_count =? 0) then None
   else let '(ex, rest) := read_exponent (r ++ w) in
        Some (of_decimal neg mant (ex - frac_count), rest)) =
  (fun xr => (xr.1, xr.2 ++ w)) <$>
  (if (int_count =? 0) && (frac_count =? 0) then None
   else let '(ex, rest) := read_exponent r in
        Some (of_decimal neg mant (ex - frac_count), rest)).
Proof.
  intros Hw. destruct ((int_count =? 0) && (frac_count =? 0)); [reflexivity|].
  rewrite (read_exponent_app r w Hw).
  destruct (read_exponent r) as [ex rest]. reflexivity.
Qed.

Lemma read_unsigned_decimal_app (neg : bool) (t w : jsstring) :
  Forall (fun c => is_whitespace c = true) w ->
  read_unsigned_decimal neg (t ++ w) =
  (fun xr => (xr.1, xr.2 ++ w)) <$> read_unsigned_decimal neg t.
Proof.
  intros Hw. unfold read_unsigned_decimal.
  rewrite (starts_with_app (lit "Infinity") t w Hw)
    by (repeat constructor).
  destruct (starts_with (lit "Infinity") t) as [r|]; [reflexivity|].
  cbn [fmap option_fmap option_map].
  rewrite (read_digits_app 0 0 t w Hw).
  destruct (read_digits 0 0 t) as [[int_part int_count] rest]. cbv beta iota.
  destruct rest as [|c r].
  - destruct w as [|b w'].
    + exact (read_exponent_tail neg int_count int_part 0 [] [] Hw).
    + cbn [app]. rewrite (whitespace_is_not b 46 (Forall_inv Hw) eq_refl).
      exact (read_exponent_tail neg int_count int_part 0 [] (b :: w') Hw).
  - cbn [app]. destruct (c =? 46)%N.
    + rewrite (read_digits_app int_part 0 r w Hw).
      destruct (read_digits int_part 0 r) as [[m count] r']. cbv beta iota.
      destruct ((int_count =? 0) && (count =? 0)).
      * exact (read_exponent_tail neg int_count int_part 0 (c :: r) w Hw).
      * exact (read_exponent_tail neg int_count m count r' w Hw).
    + exact (read_exponent_tail neg int_count int_part 0 (c :: r) w Hw).
Qed.

Lemma read_decimal_app (t w : jsstring) :
  Forall (fun c => is_whitespace c = true) w ->
  read_decimal (t ++ w) = (fun xr => (xr.1, xr.2 ++ w)) <$> read_decimal t.
Proof.
  intros Hw. destruct t as [|c rest].
  - cbn [app]. destruct Hw as [|b w Hb Hw]; [reflexivity|].
    cbn [read_decimal].
    rewrite (whitespace_is_not b 45 Hb eq_refl), (whitespace_is_not b 43 Hb eq_refl).
    apply (read_unsigned_decimal_app false [] (b :: w)). constructor; assumption.
  - cbn [app read_decimal]. destruct (c =? 45)%N.
    { apply read_unsigned_decimal_app, Hw. }
    destruct (c =? 43)%N.
    { apply read_unsigned_decimal_app, Hw. }
    apply (read_unsigned_decimal_app false (c :: rest) w Hw).
Qed.

Lemma trim_start_split (l : jsstring) :
  exists w, Forall (fun c => is_whitespace c = true) w /\ l = w ++ trim_start l.
Proof.
  induction l as [|c l (w & Hw & IH)]; [exists []; split; [constructor | reflexivity]|].
  cbn [trim_start]. destruct (is_whitespace c) eqn:Hc.
  - exists (c :: w). split; [constructor; assumption|]. cbn [app]. f_equal. exact IH.
  - exists []. split; [constructor | reflexivity].
Qed.

Lemma trim_end_split (l : jsstring) :
  exists w, Forall (fun c => is_whitespace c = true) w /\ l = trim_end l ++ w.
Proof.
  destruct (trim_start_split (rev l)) as (w & Hw & Hsplit).
  exists (rev w). split.
  - apply Forall_forall. intros c Hin. rewrite Forall_forall in Hw. apply Hw.
    apply list_elem_of_In. apply list_elem_of_In, in_rev in Hin. exact Hin.
  - unfold trim_end. rewrite <- rev_app_distr, <- Hsplit, rev_involutive. reflexivity.
Qed.

(** X5.  A string that passes [isNumeric] and is not a [0x], [0o] or
    [0b] literal is converted by [parseFloat] to the very number the
    range checks compared: for such fields what is validated is what is
    computed with. *)
Theorem decimal_string_converts_as_checked (s : jsstring) :
  isNumeric (JStr s) = Ok true ->
  read_non_decimal (trim s) = None ->
  parseFloat (JStr s) = ToNumber (JStr s).
Proof.
  intros Hnumeric Hradix.
  assert (Hfloat : parseFloat (JStr s) = Ok (parseFloat_string s)) by reflexivity.
  assert (Hnumber : ToNumber (JStr s) = Ok (StringToNumber s)) by reflexivity.
  rewrite Hfloat, Hnumber. f_equal.
  unfold isNumeric in Hnumeric. rewrite Hfloat in Hnumeric.
  cbn [mbind result_bind] in Hnumeric.
  destruct (isNaN (parseFloat_string s)) eqn:Hnan; [discriminate|].
  cbn [negb] in Hnumeric. unfold isFinite in Hnumeric.
  rewrite Hnumber in Hnumeric. cbn [mbind result_bind] in Hnumeric.
  injection Hnumeric as Hfinite.
  unfold trim in Hradix. unfold parseFloat_string in *. unfold StringToNumber in *.
  remember (trim_end (trim_start s)) as t eqn:Ht.
  destruct (trim_end_split (trim_start s)) as (w & Hw & Hsplit).
  rewrite <- Ht in Hsplit. rewrite Hsplit, (read_decimal_app t w Hw) in Hnan |- *.
  destruct t as [|c t'].
  - change (read_decimal []) with (@None (number * jsstring)) in Hnan.
    discriminate Hnan.
  - rewrite Hradix in Hfinite |- *.
    destruct (read_decimal (c :: t')) as [[x [|c' r]]|];
      [reflexivity | discriminate Hfinite | discriminate Hfinite].
Qed.

(** X5 at [" 12.5 "]. *)
Lemma decimal_string_converts_as_checked_witness :
  isNumeric (JStr (lit " 12.5 ")) = Ok true /\
  read_non_decimal (trim (lit " 12.5 ")) = None /\
  parseFloat (JStr (lit " 12.5 ")) = ToNumber (JStr (lit " 12.5 ")).
Proof.
  split; [vm_compute; reflexivity|]. split; [vm_compute; reflexivity|].
  exact (decimal_string_converts_as_checked (lit " 12.5 ") eq_refl eq_refl).
Defined.

(** * More of /feedback *)

Lemma replace_all_app (c : N) (by_ a b : jsstring) :
  replace_all c by_ (a ++ b) = replace_all c by_ a ++ replace_all c by_ b.
Proof. unfold replace_all. apply flat_map_app. Qed.

Lemma replace_all_single (c : N) (by_ : jsstring) (a : N) :
  replace_all c by_ [a] = if (a =? c)%N then by_ else [a].
Proof. unfold replace_all. cbn [flat_map]. apply app_nil_r. Qed.

Lemma escape_app (a b : jsstring) : escape (a ++ b) = escape a ++ escape b.
Proof. unfold escape. rewrite !replace_all_app. reflexivity. Qed.

Lemma escape_single (c : N) : escape [c] = escape_char c.
Proof.
  unfold escape, escape_char.
  repeat (rewrite replace_all_single;
          match goal with
          | |- context [(c =? ?k)%N] =>
              destruct (c =? k)%N eqn:?; [vm_compute; reflexivity|]
          end).
  reflexivity.
Qed.

(** X6.  The eight replacements of [escape], made one after the other,
    amount to a single pass that rewrites each code unit on its own: the
    ampersand of an entity written for one character is not escaped
    again. *)
Theorem escape_single_pass (s : jsstring) : escape s = flat_map escape_char s.
Proof.
  induction s as [|c s IH]; [reflexivity|].
  change (c :: s) with ([c] ++ s).
  rewrite escape_app, escape_single, IH. reflexivity.
Qed.

Lemma escape_char_clean (c : N) :
  Forall (fun a => markup_char a = false) (escape_char c).
Proof.
  unfold escape_char.
  destruct (c =? 38)%N eqn:H38; [repeat constructor|].
  destruct (c =? 34)%N eqn:H34; [repeat constructor|].
  destruct (c =? 39)%N eqn:H39; [repeat constructor|].
  destruct (c =? 60)%N eqn:H60; [repeat constructor|].
  destruct (c =? 62)%N eqn:H62; [repeat constructor|].
  destruct (c =? 47)%N eqn:H47; [repeat constructor|].
  destruct (c =? 92)%N eqn:H92; [repeat constructor|].
  destruct (c =? 96)%N eqn:H96; [repeat constructor|].
  constructor; [|constructor].
  unfold markup_char. rewrite H34, H39, H60, H62, H47, H92, H96. reflexivity.
Qed.

Lemma escape_clean (s : jsstring) : Forall (fun a => markup_char a = false) (escape s).
Proof.
  induction s as [|c s IH]; [constructor|].
  change (c :: s) with ([c] ++ s). rewrite escape_app, escape_single.
  apply Forall_app. split; [apply escape_char_clean | exact IH].
Qed.

(** [escape_char] keeps the ends free of white space. *)
Lemma escape_char_ends (c : N) :
  is_whitespace c = false ->
  exists a rest,
    escape_char c = a :: rest /\ is_whitespace a = false /\
    is_whitespace (List.last rest a) = false.
Proof.
  intros Hc. unfold escape_char.
  repeat match goal with
         | |- context [(c =? ?k)%N] =>
             destruct (c =? k)%N;
             [eexists _, _; split; [vm_compute; reflexivity|]; split; reflexivity|]
         end.
  exists c, []. auto.
Qed.

Lemma last_app_cons {A : Type} (l : list A) (a : A) (rest : list A) (d : A) :
  List.last (l ++ a :: rest) d = List.last rest a.
Proof.
  revert l a d. induction rest as [|y rest IH]; intros l a d.
  - apply last_last.
  - transitivity (List.last rest y); [|symmetry; exact (IH [] y a)].
    change (l ++ a :: y :: rest) with (l ++ [a] ++ y :: rest).
    rewrite app_assoc. apply IH.
Qed.

Lemma surrounded_false (s : jsstring) :
  surrounded s = false <->
  s = [] \/
  exists front c, s = front ++ [c] /\ is_whitespace c = false /\
                  is_whitespace (hd c s) = false.
Proof.
  split.
  - destruct s as [|a rest]; [auto|]. cbn [surrounded]. intros H.
    apply orb_false_iff in H as [Ha Hlast]. right.
    destruct (exists_last (l := a :: rest) ltac:(discriminate)) as (front & c & Heq).
    exists front, c. split; [exact Heq|]. split; [|exact Ha].
    assert (List.last rest a = c) as <-; [|exact Hlast].
    destruct front as [|x front]; injection Heq as -> ->; [reflexivity|].
    apply (last_app_cons front c [] x).
  - intros [-> | (front & c & -> & Hc & Hhead)]; [reflexivity|].
    destruct front as [|a front]; cbn [app surrounded hd] in *.
    + rewrite Hc. cbn [orb List.last]. exact Hc.
    + rewrite Hhead. cbn [orb]. rewrite (last_app_cons front c [] a). exact Hc.
Qed.

Lemma trim_start_head (l : jsstring) :
  is_whitespace (hd 0%N (trim_start l)) = false.
Proof.
  induction l as [|c l IH]; [reflexivity|]. cbn [trim_start].
  destruct (is_whitespace c) eqn:Hc; [exact IH | exact Hc].
Qed.

(** After white space is cut from the front, what is left is empty or
    ends as the whole string did. *)
Lemma trim_start_suffix (l : jsstring) :
  exists w, l = w ++ trim_start l.
Proof. destruct (trim_start_split l) as (w & _ & H). eauto. Qed.

(** [trim] leaves no white space at either end. *)
Lemma trim_not_surrounded (s : jsstring) : surrounded (trim s) = false.
Proof.
  apply surrounded_false. unfold trim, trim_end.
  set (u := trim_start s).
  destruct (trim_start (rev u)) as [|c t] eqn:Ht; [left; reflexivity|]. right.
  exists (rev t), c. split; [reflexivity|].
  pose proof (trim_start_head (rev u)) as Hc. rewrite Ht in Hc. cbn [hd] in Hc.
  split; [exact Hc|].
  destruct (trim_start_suffix (rev u)) as [w Hw]. rewrite Ht in Hw.
  apply (f_equal (@rev N)) in Hw. rewrite rev_involutive, rev_app_distr in Hw.
  cbn [rev] in Hw. rewrite <- app_assoc in Hw.
  pose proof (trim_start_head s) as Hu. fold u in Hu.
  cbn [rev]. destruct (rev t) as [|a front] eqn:Hrt.
  - cbn [app hd]. exact Hc.
  - cbn [app hd]. rewrite Hw in Hu. cbn [app hd] in Hu. exact Hu.
Qed.

Lemma escape_not_surrounded (s : jsstring) :
  surrounded s = false -> surrounded (escape s) = false.
Proof.
  intros H. apply surrounded_false in H. apply surrounded_false.
  destruct H as [-> | (front & c & -> & Hc & Hhead)]; [left; reflexivity|]. right.
  destruct (escape_char_ends c Hc) as (a & rest & Hesc & Ha & Hlast).
  rewrite escape_app, escape_single, Hesc.
  destruct (exists_last (l := a :: rest) ltac:(discriminate)) as (mid & z & Hmid).
  assert (z = List.last rest a) as Hz.
  { rewrite <- (last_app_cons [] a rest a). cbn [app]. rewrite Hmid.
    destruct mid as [|x mid]; [reflexivity|]. cbn [app].
    symmetry. apply (last_app_cons (x :: mid) z [] a). }
  exists (escape front ++ mid), z. rewrite Hmid, app_assoc.
  split; [reflexivity|]. split; [rewrite Hz; exact Hlast|].
  destruct front as [|x front].
  - cbn [escape app]. change (escape []) with (@nil N). cbn [app].
    rewrite <- Hmid. cbn [hd]. exact Ha.
  - cbn [app hd] in Hhead.
    destruct (escape_char_ends x Hhead) as (a' & rest' & Hesc' & Ha' & _).
    change (x :: front) with ([x] ++ front).
    rewrite escape_app, escape_single, Hesc'. cbn [app hd]. exact Ha'.
Qed.

Section AnyJournal.
Context `{Pool Db}.

(** X7.  Every request makes one call on the pool: the fixed [INSERT]
    statement with one bound value.  The text never enters the
    statement, and the value holds no quote, angle bracket, slash or
    backtick and no white space at its ends. *)
Theorem feedback_makes_one_insert (db : Db) (calls : list Call) (text : jsstring) :
  exists value,
    (database (feedback (db, calls) text)).2 =
      calls ++ [{| call_text := insert_feedback; call_values := [value] |}] /\
    value = escape (trim text) /\
    Forall (fun c => markup_char c = false) value /\
    surrounded value = false.
Proof.
  exists (escape (trim text)).
  split; [|split; [reflexivity|split;
           [apply escape_clean | apply escape_not_surrounded, trim_not_surrounded]]].
  unfold feedback. rewrite feedback_chain_runs. cbn [query journal_pool fst snd].
  destruct (query db insert_feedback [escape (trim text)]) as [[rows|detail] db'];
    reflexivity.
Qed.

(** X8.  When the insert succeeds the response is the 201 with the
    first row the database returned, the database is left as the pool
    left it, and both console lines are written. *)
Theorem feedback_created (db db' : Db) (text : jsstring)
    (rows : list FeedbackRecord) :
  query db insert_feedback [escape (trim text)] = (Rows rows, db') ->
  response (feedback db text) =
    {| status := 201; body := RecordBody (head rows) |} /\
  database (feedback db text) = db' /\
  console (feedback db text) =
    [console_log (lit "Received feedback:") (LogText (escape (trim text)));
     console_log (lit "Feedback saved successfully:") (LogRow (head rows))].
Proof.
  intros Hquery. unfold feedback. rewrite feedback_chain_runs, Hquery.
  repeat split.
Qed.
End AnyJournal.

(** X8 at the empty table. *)
Lemma feedback_created_witness :
  query ([] : list FeedbackRecord) insert_feedback
    [escape (trim (lit "  Great <app>!  "))] =
    (Rows [{| record_id := 1; content := lit "Great &lt;app&gt;!" |}],
     [{| record_id := 1; content := lit "Great &lt;app&gt;!" |}]) /\
  response (feedback ([] : list FeedbackRecord) (lit "  Great <app>!  ")) =
    {| status := 201;
       body := RecordBody
                 (head [{| record_id := 1; content := lit "Great &lt;app&gt;!" |}]) |} /\
  database (feedback ([] : list FeedbackRecord) (lit "  Great <app>!  ")) =
    [{| record_id := 1; content := lit "Great &lt;app&gt;!" |}] /\
  console (feedback ([] : list FeedbackRecord) (lit "  Great <app>!  ")) =
    [console_log (lit "Received feedback:")
       (LogText (escape (trim (lit "  Great <app>!  "))));
     console_log (lit "Feedback saved successfully:")
       (LogRow (head [{| record_id := 1; content := lit "Great &lt;app&gt;!" |}]))].
Proof.
  split; [vm_compute; reflexivity|].
  exact (feedback_created ([] : list FeedbackRecord)
           [{| record_id := 1; content := lit "Great &lt;app&gt;!" |}]
           (lit "  Great <app>!  ")
           [{| record_id := 1; content := lit "Great &lt;app&gt;!" |}] eq_refl).
Defined.

(** * The middleware of the later version *)

Lemma header_names_differ (a b : string) :
  bool_decide (lit a = lit b) = false -> lit a <> lit b.
Proof. intros H Heq. apply bool_decide_eq_false in H. exact (H Heq). Qed.

(** The headers after the first layer. *)
Lemma cors_headers_step (req : Request) (headers : gmap jsstring JsValue) :
  exists headers',
    cors_headers req headers =
      (if bool_decide (method req = lit "OPTIONS")
       then Finish headers' (StatusOnly 204) else Continue headers') /\
    headers' !! lit "Access-Control-Allow-Origin" =
      (if includes allowedOrigins (origin_header req)
       then JStr <$> origin_header req
       else headers !! lit "Access-Control-Allow-Origin") /\
    headers' !! lit "Access-Control-Allow-Credentials" = Some (JBool true).
Proof.
  unfold cors_headers. eexists. split; [reflexivity|]. split.
  - rewrite !lookup_insert_ne by (apply header_names_differ; vm_compute; reflexivity).
    destruct (origin_header req) as [o|]; cbn [includes default fmap option_fmap option_map].
    + destruct (bool_decide (o ∈ allowedOrigins)); [apply lookup_insert_eq | reflexivity].
    + reflexivity.
  - apply lookup_insert_eq.
Qed.

(** X9.  The first layer names an origin in [Access-Control-Allow-Origin]
    only when it is the request's own origin and one of the five listed
    ones; it always allows credentials, and it answers every [OPTIONS]
    request itself with 204, whatever the origin. *)
Theorem cors_headers_allow_origin (req : Request)
    (headers : gmap jsstring JsValue) :
  headers !! lit "Access-Control-Allow-Origin" = None ->
  exists headers',
    cors_headers req headers =
      (if bool_decide (method req = lit "OPTIONS")
       then Finish headers' (StatusOnly 204) else Continue headers') /\
    (forall v,
       headers' !! lit "Access-Control-Allow-Origin" = Some v <->
       exists o, origin_header req = Some o /\ o ∈ allowedOrigins /\ v = JStr o) /\
    headers' !! lit "Access-Control-Allow-Credentials" = Some (JBool true).
Proof.
  intros Hnone. destruct (cors_headers_step req headers) as (headers' & Hstep & Horigin & Hcred).
  exists headers'. split; [exact Hstep|]. split; [|exact Hcred].
  intros v. rewrite Horigin. destruct (origin_header req) as [o|]; cbn [includes].
  - destruct (bool_decide (o ∈ allowedOrigins)) eqn:Hin.
    + apply bool_decide_eq_true in Hin. cbn [fmap option_fmap option_map]. split.
      * intros [= <-]. exists o. auto.
      * intros (o' & [= <-] & _ & ->). reflexivity.
    + apply bool_decide_eq_false in Hin. rewrite Hnone. split; [discriminate|].
      intros (o' & [= <-] & Hin' & _). contradiction.
  - rewrite Hnone. split; [discriminate|]. intros (o & Ho & _). discriminate.
Qed.

(** X9 at a request from the local front end. *)
Lemma cors_headers_allow_origin_witness :
  (∅ : gmap jsstring JsValue) !! lit "Access-Control-Allow-Origin" = None /\
  exists headers',
    cors_headers {| method := lit "POST";
                    origin_header := Some (lit "http://localhost:3000") |} ∅ =
      (if bool_decide (lit "POST" = lit "OPTIONS")
       then Finish headers' (StatusOnly 204) else Continue headers') /\
    (forall v,
       headers' !! lit "Access-Control-Allow-Origin" = Some v <->
       exists o, Some (lit "http://localhost:3000") = Some o /\
                 o ∈ allowedOrigins /\ v = JStr o) /\
    headers' !! lit "Access-Control-Allow-Credentials" = Some (JBool true).
Proof.
  split; [reflexivity|].
  exact (cors_headers_allow_origin
           {| method := lit "POST";
              origin_header := Some (lit "http://localhost:3000") |} ∅ eq_refl).
Defined.

(** X10.  In the later version no request gets past the two CORS layers:
    an [OPTIONS] request is answered 204 by the first, and for any other
    method the [origin] function of the second looks up [allowedOrigins],
    which is bound only inside the first layer's body, and fails.  This
    holds whatever the library would write and whatever is registered
    after (the body parser and both routes). *)
Theorem later_routes_unreachable (write_headers : Layer) (later : list Layer)
    (req : Request) (headers : gmap jsstring JsValue) :
  (method req = lit "OPTIONS" /\
   exists headers',
     dispatch (server write_headers later) req headers =
       Answered headers' (StatusOnly 204)) \/
  (method req <> lit "OPTIONS" /\
   dispatch (server write_headers later) req headers =
     Errored (ReferenceError "allowedOrigins")).
Proof.
  unfold server. cbn [dispatch].
  destruct (cors_headers_step req headers) as (headers' & -> & _).
  destruct (bool_decide (method req = lit "OPTIONS")) eqn:Hmethod.
  - apply bool_decide_eq_true in Hmethod. left. eauto.
  - apply bool_decide_eq_false in Hmethod. right. split; [exact Hmethod|].
    reflexivity.
Qed.

(** * The earlier version of /validate *)

Lemma earlier_check_numeric_first (entries : list (jsstring * JsValue))
    (next : result Response) :
  Detailed.check_numeric entries next =
  match first_not_numeric entries with
  | Ok None => next
  | Ok (Some key) =>
      respond 400 (ErrorBody (Detailed.label_of key ++ lit " must be a valid number."))
  | Throw e => Throw e
  end.
Proof.
  induction entries as [|[key value] rest IH]; simpl; [reflexivity|].
  destruct (isNumeric value) as [[|]|e]; simpl; auto.
Qed.

(** The handler, read as two passes over the tables followed by the
    conversions and the [try] block. *)
Lemma earlier_validate_cases (b : gmap jsstring JsValue) :
  Detailed.validate b =
  match first_failure Detailed.range_rules b with
  | Throw e => Throw e
  | Ok (Some message) => respond 400 (ErrorBody message)
  | Ok None =>
      match first_not_numeric (Detailed.parameters b) with
      | Throw e => Throw e
      | Ok (Some key) =>
          respond 400
            (ErrorBody (Detailed.label_of key ++ lit " must be a valid number."))
      | Ok None =>
          numMovingCost ← parseFloat (get b "movingCost");
          numRent ← parseFloat (get b "rent");
          numUtilities ← parseFloat (get b "utilities");
          numImmediateCost ← parseFloat (get b "immediateCost");
          numSecurityDeposit ← parseFloat (get b "securityDeposit");
          numNetIncome ← parseFloat (get b "netIncome");
          numSavings ← parseFloat (get b "savings");
          numMonthsToEvaluate ← parseInt10 (get b "monthsToEvaluate");
          numAssociatedCost ← parseInt (get b "associatedCost");
          numOtherExpenses ← parseInt (get b "otherExpenses");
          match
            Detailed.calculate numMovingCost numRent numUtilities numImmediateCost
              numSecurityDeposit numNetIncome numSavings numMonthsToEvaluate
              numAssociatedCost numOtherExpenses (get b "monthsToEvaluate")
          with
          | Ok response => respond 200 (ResultBody response)
          | Throw _ =>
              respond 500 (ErrorBody (lit "Error processing your request."))
          end
      end
  end.
Proof.
  unfold Detailed.validate, Detailed.range_rules, first_failure.
  repeat
    match goal with
    | |- context [mbind _ (?rule (get b ?key))] =>
        destruct (rule (get b key)) as [[|]|?]; cbn [mbind result_bind];
        try reflexivity
    end.
  rewrite earlier_check_numeric_first. fold (Detailed.parameters b). reflexivity.
Qed.

Lemma isNumeric_ToNumber (v : JsValue) :
  isNumeric v = Ok true -> exists x, ToNumber v = Ok x.
Proof.
  unfold isNumeric, isFinite. destruct (parseFloat v) as [y|e]; [|discriminate].
  cbn [mbind result_bind]. destruct (negb (isNaN y)); [|discriminate].
  destruct (ToNumber v) as [x|e]; [eauto | discriminate].
Qed.

(** The [try] block of the earlier version completes when the months of
    the body convert to a Number. *)
Lemma earlier_calculate_Ok (numMovingCost numRent numUtilities numImmediateCost
    numSecurityDeposit numNetIncome numSavings numMonthsToEvaluate
    numAssociatedCost numOtherExpenses : number) (monthsToEvaluate : JsValue)
    (months : number) :
  ToNumber monthsToEvaluate = Ok months ->
  exists s,
    Detailed.calculate numMovingCost numRent numUtilities numImmediateCost
      numSecurityDeposit numNetIncome numSavings numMonthsToEvaluate
      numAssociatedCost numOtherExpenses monthsToEvaluate =
    let totalMonthlyCost := num_add (num_add numRent numUtilities) numOtherExpenses in
    let initialCosts :=
      num_add (num_add (num_add numMovingCost numImmediateCost) numSecurityDeposit)
        numAssociatedCost in
    let affordabilityDuration :=
      Math_floor
        (num_div (num_add numSavings (num_mul numNetIncome numMonthsToEvaluate))
           totalMonthlyCost) in
    Ok {|
      initialCosts := initialCosts;
      totalMonthlyCost := totalMonthlyCost;
      totalCostOverTime :=
        num_add initialCosts (num_mul totalMonthlyCost numMonthsToEvaluate);
      affordabilityDuration := affordabilityDuration;
      canAfford := num_ge affordabilityDuration months;
      additionalMonthlyIncomeNeeded :=
        if num_ge affordabilityDuration numMonthsToEvaluate
        then JNum (of_Z 0) else JStr s;
    |}.
Proof.
  intros Hmonths.
  destruct (toFixed_2_Ok
              (num_sub (num_add (num_add numRent numUtilities) numOtherExpenses)
                 (num_add numNetIncome (num_div numSavings numMonthsToEvaluate))))
    as [s Hs].
  exists s. unfold Detailed.calculate, js_ge_of. rewrite Hmonths.
  cbv zeta.
  destruct (num_ge _ numMonthsToEvaluate).
  - reflexivity.
  - rewrite Hs. reflexivity.
Qed.

(** A request of the earlier version that passes validation is answered
    with status 200; [months] is the Number the body's months convert
    to, [numMonths] what [parseInt] makes of them. *)
Lemma earlier_validate_accepted (b : gmap jsstring JsValue) :
  Detailed.passes_validation b ->
  exists r months numMonths s,
    Detailed.validate b = respond 200 (ResultBody r) /\
    ToNumber (get b "monthsToEvaluate") = Ok months /\
    parseInt10 (get b "monthsToEvaluate") = Ok numMonths /\
    canAfford r = num_ge (affordabilityDuration r) months /\
    additionalMonthlyIncomeNeeded r =
      (if num_ge (affordabilityDuration r) numMonths
       then JNum (of_Z 0) else JStr s).
Proof.
  intros [Hrange Hnumeric]. rewrite earlier_validate_cases, Hrange, Hnumeric.
  apply first_not_numeric_None in Hnumeric. unfold Detailed.parameters in Hnumeric.
  assert (exists months, ToNumber (get b "monthsToEvaluate") = Ok months)
    as [months Hmonths].
  { rewrite Forall_forall in Hnumeric.
    apply (isNumeric_ToNumber _
             (Hnumeric (lit "monthsToEvaluate", get b "monthsToEvaluate")
                ltac:(apply list_elem_of_In; simpl; tauto))). }
  repeat
    match goal with
    | H : Forall _ (_ :: _) |- _ =>
        let Hv := fresh "Hv" in
        apply Forall_cons in H; destruct H as [Hv H];
        apply isNumeric_parseFloat in Hv; destruct Hv as [? Hv]; simpl in Hv
    end.
  unfold parseFloat, parseInt10, parseInt.
  repeat match goal with Hv : ToString _ = Ok _ |- _ => rewrite Hv; clear Hv end.
  cbn [mbind result_bind].
  match goal with
  | |- context [Detailed.calculate ?a1 ?a2 ?a3 ?a4 ?a5 ?a6 ?a7 ?a8 ?a9 ?a10 ?m] =>
      destruct (earlier_calculate_Ok a1 a2 a3 a4 a5 a6 a7 a8 a9 a10 m months Hmonths)
        as [s ->]
  end.
  cbv zeta. eexists _, months, _, s. split; [reflexivity|]. split; [exact Hmonths|].
  split; [reflexivity|]. split; reflexivity.
Qed.

(** X11.  The earlier handler answers 200 with a result to the requests
    that pass both passes of its validation and 400 with one message to
    the others; the 500 of its [catch] is never sent. *)
Theorem earlier_validate_200_or_400 (b : gmap jsstring JsValue) (resp : Response) :
  Detailed.validate b = Ok resp ->
  (Detailed.passes_validation b /\ status resp = 200 /\
   exists r, body resp = ResultBody r) \/
  (~ Detailed.passes_validation b /\ status resp = 400 /\
   exists message, body resp = ErrorBody message).
Proof.
  intros Hresp.
  destruct (first_failure Detailed.range_rules b) as [[message|]|e] eqn:Hrange.
  - rewrite earlier_validate_cases, Hrange in Hresp. injection Hresp as <-.
    right. split; [|split; [reflexivity | eauto]].
    intros [Hpass _]. rewrite Hrange in Hpass. discriminate.
  - destruct (first_not_numeric (Detailed.parameters b)) as [[key|]|e] eqn:Hnumeric.
    + rewrite earlier_validate_cases, Hrange, Hnumeric in Hresp. injection Hresp as <-.
      right. split; [|split; [reflexivity | eauto]].
      intros [_ Hpass]. rewrite Hnumeric in Hpass. discriminate.
    + destruct (earlier_validate_accepted b (conj Hrange Hnumeric))
        as (r & months & numMonths & s & Hok & _).
      rewrite Hok in Hresp. injection Hresp as <-.
      left. split; [exact (conj Hrange Hnumeric)|]. split; [reflexivity | eauto].
    + rewrite earlier_validate_cases, Hrange, Hnumeric in Hresp. discriminate.
  - rewrite earlier_validate_cases, Hrange in Hresp. discriminate.
Qed.

(** X11 at a request without [rent]. *)
Lemma earlier_validate_200_or_400_witness :
  Detailed.validate (delete (lit "rent") Detailed.half_month) =
    Ok {| status := 400; body := ErrorBody (lit "Invalid rent provided.") |} /\
  ((Detailed.passes_validation (delete (lit "rent") Detailed.half_month) /\
    status {| status := 400; body := ErrorBody (lit "Invalid rent provided.") |} = 200 /\
    exists r,
      body {| status := 400; body := ErrorBody (lit "Invalid rent provided.") |} =
        ResultBody r) \/
   (~ Detailed.passes_validation (delete (lit "rent") Detailed.half_month) /\
    status {| status := 400; body := ErrorBody (lit "Invalid rent provided.") |} = 400 /\
    exists message,
      body {| status := 400; body := ErrorBody (lit "Invalid rent provided.") |} =
        ErrorBody message)).
Proof.
  split; [vm_compute; reflexivity|].
  exact (earlier_validate_200_or_400 (delete (lit "rent") Detailed.half_month)
           {| status := 400; body := ErrorBody (lit "Invalid rent provided.") |}
           eq_refl).
Defined.



(** The response at six and a half months: the funds last six months,
    [canAfford] is false and no income is said to be needed. *)
Example half_month_response :
  Detailed.validate Detailed.half_month =
  respond 200 (ResultBody {|
    initialCosts := of_Z 1650;
    totalMonthlyCost := of_Z 1000;
    totalCostOverTime := of_Z 7650;
    affordabilityDuration := of_Z 6;
    canAfford := false;
    additionalMonthlyIncomeNeeded := JNum (of_Z 0);
  |}).
Proof. vm_compute. reflexivity. Qed.

Lemma whole_months (n : Z) :
  1 <= n <= 60 ->
  missing_or_out_of_range (int n) = Ok false /\ isNumeric (int n) = Ok true.
Proof.
  intros Hn.
  assert (exists k : nat, n = Z.of_nat k /\ (1 <= k <= 60)%nat) as (k & -> & Hk).
  { exists (Z.to_nat n). lia. }
  destruct k as [|k]; [lia|].
  do 60 (destruct k as [|k]; [vm_compute; split; reflexivity|]).
  lia.
Qed.

Lemma earlier_months_replaced (b : gmap jsstring JsValue) (n : Z) :
  1 <= n <= 60 ->
  Detailed.passes_validation b ->
  Detailed.passes_validation (<[lit "monthsToEvaluate" := int n]> b).
Proof.
  intros Hn [Hrange Hnumeric]. destruct (whole_months n Hn) as [Hmonths Hint].
  unfold Detailed.passes_validation, Detailed.range_rules, Detailed.parameters,
    first_failure, first_not_numeric in *.
  rewrite !get_insert, !get_insert_ne by discriminate.
  rewrite Hmonths, Hint. cbn [mbind result_bind].
  split.
  - revert Hrange.
    repeat
      match goal with
      | |- context [mbind _ (?rule (get b ?key))] =>
          destruct (rule (get b key)) as [[|]|?]; cbn [mbind result_bind];
          try discriminate
      end.
    reflexivity.
  - revert Hnumeric.
    repeat
      match goal with
      | |- context [mbind _ (isNumeric (get b ?key))] =>
          destruct (isNumeric (get b key)) as [[|]|?]; cbn [mbind result_bind];
          try discriminate
      end.
    reflexivity.
Qed.

(** X13.  The months check of the earlier version lets every whole
    number from 1 to 60 through, although its message speaks of 1 to 12:
    a request that is accepted stays accepted when its months are
    replaced by any of them. *)
Theorem earlier_months_up_to_60 (b : gmap jsstring JsValue) (n : Z) :
  1 <= n <= 60 ->
  Detailed.passes_validation b ->
  exists r,
    Detailed.validate (<[lit "monthsToEvaluate" := int n]> b) =
      respond 200 (ResultBody r).
Proof.
  intros Hn Hpass.
  destruct (earlier_validate_accepted _ (earlier_months_replaced b n Hn Hpass))
    as (r & _ & _ & _ & Hok & _).
  eauto.
Qed.

(** X13 at 48 months. *)
Lemma earlier_months_up_to_60_witness :
  1 <= 48 <= 60 /\
  Detailed.passes_validation Detailed.half_month /\
  exists r,
    Detailed.validate (<[lit "monthsToEvaluate" := int 48]> Detailed.half_month) =
      respond 200 (ResultBody r).
Proof.
  assert (Hpass : Detailed.passes_validation Detailed.half_month)
    by (split; vm_compute; reflexivity).
  split; [lia|]. split; [exact Hpass|].
  exact (earlier_months_up_to_60 Detailed.half_month 48 ltac:(lia) Hpass).
Defined.

(** X14.  The earlier version, too, answers an invalid request with one
    message, first failure wins.  Its presence/range rules run in the
    order movingCost, rent, utilities, immediateCost, monthsToEvaluate,
    securityDeposit, associatedCost, netIncome, savings, otherExpenses;
    only when all pass are the fields tested for being numbers, in the
    order of its [parameters] object and under the labels of its
    [fieldLabels].  When no check fails the response is a 200. *)
Theorem earlier_first_failure_wins :
  (forall b : gmap jsstring JsValue,
     match first_failure Detailed.range_rules b with
     | Throw e => Detailed.validate b = Throw e
     | Ok (Some message) => Detailed.validate b = respond 400 (ErrorBody message)
     | Ok None =>
         match first_not_numeric (Detailed.parameters b) with
         | Throw e => Detailed.validate b = Throw e
         | Ok (Some key) =>
             Detailed.validate b =
             respond 400
               (ErrorBody (Detailed.label_of key ++ lit " must be a valid number."))
         | Ok None => exists r, Detailed.validate b = respond 200 (ResultBody r)
         end
     end) /\
  map (fun entry => entry.1.1) Detailed.range_rules =
    ["movingCost"; "rent"; "utilities"; "immediateCost"; "monthsToEvaluate";
     "securityDeposit"; "associatedCost"; "netIncome"; "savings";
     "otherExpenses"]%string /\
  map fst (Detailed.parameters ∅) =
    map lit ["movingCost"; "immediateCost"; "rent"; "securityDeposit"; "utilities";
             "associatedCost"; "netIncome"; "savings"; "monthsToEvaluate";
             "otherExpenses"]%string /\
  map (fun entry => Detailed.label_of entry.1) (Detailed.parameters ∅) =
    [lit "Moving Cost"; lit "Immediate Cost"; lit "Monthly Rent";
     lit "Security Deposit"; lit "Utilities"; lit "Associated Cost";
     lit "Net Income"; lit "Total Savings"; lit "Months to Evaluate";
     lit "Other Expenses"].
Proof.
  split; [|repeat split; vm_compute; reflexivity].
  intros b. rewrite earlier_validate_cases.
  destruct (first_failure Detailed.range_rules b) as [[message|]|e] eqn:Hrange;
    try reflexivity.
  destruct (first_not_numeric (Detailed.parameters b)) as [[key|]|e] eqn:Hnumeric;
    try reflexivity.
  destruct (earlier_validate_accepted b (conj Hrange Hnumeric))
    as (r & _ & _ & _ & Hok & _).
  exists r. rewrite <- Hok, earlier_validate_cases, Hrange, Hnumeric. reflexivity.
Qed.
